(** * Product REST API: the router's validation rules and the product store

    A shallow embedding of [src/router.ts]: the five validated routes, the
    express-validator chains they declare, the [handleInputErrors] gate and
    the product handlers behind it, followed by the properties of the
    request/response contract. *)

From Stdlib Require Import ZArith QArith Ascii String Lia.
From Stdlib Require Import DecimalString DecimalZ DecimalPos DecimalN.
From stdpp Require Import base option list strings gmap.

Open Scope string_scope.
Open Scope Z_scope.
Open Scope list_scope.

(** ** JavaScript values carried by a request

    Body fields are JSON scalars; an absent field reads as [Undefined].
    A number is given by the integer JSON literal it is read from: [Num z]
    is the double nearest to [z]. *)
Module JS.

Inductive value : Type :=
| Undefined
| Null
| Bool (b : bool)
| Num (z : Z)
| Str (s : string).

Definition code (c : ascii) : Z := Z.of_N (N_of_ascii c).

Definition is_digit (c : ascii) : bool := (48 <=? code c) && (code c <=? 57).

Fixpoint all_digits (s : string) : bool :=
  match s with
  | EmptyString => true
  | String c r => is_digit c && all_digits r
  end.

(** The regular expression [[0-9]+]. *)
Definition digits1 (s : string) : bool :=
  match s with
  | EmptyString => false
  | _ => all_digits s
  end.

(** The optional sign [[+-]?] at the head of a numeral. *)
Definition is_sign (c : ascii) : bool := (code c =? 43) || (code c =? 45).

Definition strip_sign (s : string) : string :=
  match s with
  | String c r => if is_sign c then r else s
  | EmptyString => EmptyString
  end.

(** *** The double an integer literal reads as

    Integers below 2^53 in magnitude are doubles.  Above, the 53 leading
    bits are kept and the rest is rounded to nearest, a tie to the even
    significand; from 2^1024 on the result is an infinity. *)
Definition to_double (z : Z) : Z :=
  let a := Z.abs z in
  if a <? 2 ^ 53 then z
  else
    let e := Z.log2 a - 52 in
    let m := a / 2 ^ e in
    let r := a mod 2 ^ e in
    let half := 2 ^ (e - 1) in
    let up := (half <? r) || ((r =? half) && Z.odd m) in
    Z.sgn z * ((if up then m + 1 else m) * 2 ^ e).

Definition overflows (z : Z) : bool := 2 ^ 1024 <=? Z.abs (to_double z).

(** *** [String(n)] for the number an integer literal reads as

    [Infinity] when the double is infinite, plain decimal digits when it is
    below 10^21 in magnitude, exponent notation (mantissa, [e+], exponent)
    from there on.  The digits are those of the exact value of the double.
    (Above 2^53 ECMAScript prints the shortest digits that read back as the
    same double, padded with zeros: other digits in the same places, and the
    validators only look at the shape.) *)
Definition Z_to_string (z : Z) : string :=
  NilEmpty.string_of_int (Z.to_int z).

Fixpoint drop_trailing_zeros (s : string) : string :=
  match s with
  | EmptyString => EmptyString
  | String c r =>
      let r' := drop_trailing_zeros r in
      match r' with
      | EmptyString => if code c =? 48 then EmptyString else String c EmptyString
      | _ => String c r'
      end
  end.

Definition exponential (digits : string) : string :=
  match digits with
  | EmptyString => EmptyString
  | String d r =>
      let frac := drop_trailing_zeros r in
      String d (match frac with EmptyString => EmptyString | _ => "." +:+ frac end)
        +:+ "e+" +:+ Z_to_string (Z.of_nat (String.length r))
  end.

Definition Number_toString (z : Z) : string :=
  let d := to_double z in
  if overflows z then (if z <? 0 then "-Infinity" else "Infinity")
  else if Z.abs d <? 10 ^ 21 then Z_to_string d
  else (if z <? 0 then "-" else EmptyString) +:+ exponential (Z_to_string (Z.abs d)).

(** *** [ToNumber] and the comparison [value > 0] *)
Inductive number : Type :=
| NaN
| Inf (negative : bool)
| Fin (q : Q).

(** One radix digit, [None] when the character is no digit of the radix. *)
Definition digit_of (radix : Z) (c : ascii) : option Z :=
  let k := code c in
  let v := if (48 <=? k) && (k <=? 57) then k - 48
           else if (97 <=? k) && (k <=? 102) then k - 87
           else if (65 <=? k) && (k <=? 70) then k - 55
           else radix in
  if v <? radix then Some v else None.

(** Reads the longest run of radix digits: its value, its length, the rest. *)
Fixpoint read_digits (radix acc : Z) (n : nat) (s : string) : Z * nat * string :=
  match s with
  | String c r =>
      match digit_of radix c with
      | Some v => read_digits radix (radix * acc + v) (S n) r
      | None => (acc, n, s)
      end
  | EmptyString => (acc, n, s)
  end.

Definition ws1 (a : Z) : bool :=
  ((9 <=? a) && (a <=? 13)) || (a =? 32).

Definition ws2 (a b : Z) : bool := (a =? 194) && (b =? 160).

Definition ws3 (a b c : Z) : bool :=
  ((a =? 225) && (b =? 154) && (c =? 128))
  || ((a =? 226) && (b =? 128)
      && (((128 <=? c) && (c <=? 138)) || (c =? 168) || (c =? 169) || (c =? 175)))
  || ((a =? 226) && (b =? 129) && (c =? 159))
  || ((a =? 227) && (b =? 128) && (c =? 128))
  || ((a =? 239) && (b =? 187) && (c =? 191)).

(** Skips leading [StrWhiteSpaceChar]s (white space and line terminators,
    the non-ASCII ones in their UTF-8 encoding). *)
Fixpoint skip_ws (s : string) : string :=
  match s with
  | String a r1 =>
      if ws1 (code a) then skip_ws r1
      else match r1 with
           | String b r2 =>
               if ws2 (code a) (code b) then skip_ws r2
               else match r2 with
                    | String c r3 =>
                        if ws3 (code a) (code b) (code c) then skip_ws r3 else s
                    | EmptyString => s
                    end
           | EmptyString => s
           end
  | EmptyString => EmptyString
  end.

Fixpoint strip_prefix (p s : string) : option string :=
  match p, s with
  | EmptyString, _ => Some s
  | String a p', String b s' => if Ascii.eqb a b then strip_prefix p' s' else None
  | String _ _, EmptyString => None
  end.

(** [m * 10^e] as a rational. *)
Definition scale10 (m e : Z) : Q :=
  if 0 <=? e then inject_Z (m * 10 ^ e)
  else Qmake m (Z.to_pos (10 ^ (- e))).

(** [ExponentPart_opt]: the exponent and the rest; no exponent read when
    the digits are missing. *)
Definition read_exponent (s : string) : Z * string :=
  match s with
  | String c r =>
      if (code c =? 101) || (code c =? 69) then
        let '(neg, r1) :=
          match r with
          | String g r' =>
              if code g =? 43 then (false, r')
              else if code g =? 45 then (true, r')
              else (false, r)
          | EmptyString => (false, r)
          end in
        let '(v, n, r2) := read_digits 10 0 0%nat r1 in
        match n with
        | O => (0, s)
        | S _ => (if neg then - v else v, r2)
        end
      else (0, s)
  | EmptyString => (0, s)
  end.

(** [StrUnsignedDecimalLiteral]: [Infinity], [digits . digits? exp?],
    [. digits exp?] or [digits exp?]. *)
Definition read_unsigned_decimal (s : string) : option (number * string) :=
  match strip_prefix "Infinity" s with
  | Some r => Some (Inf false, r)
  | None =>
      let '(i, ni, r1) := read_digits 10 0 0%nat s in
      let '(f, nf, r2) :=
        match r1 with
        | String c r => if code c =? 46 then read_digits 10 0 0%nat r else (0, 0%nat, r1)
        | EmptyString => (0, 0%nat, r1)
        end in
      match ni, nf with
      | O, O => None
      | _, _ =>
          let '(e, r3) := read_exponent r2 in
          Some (Fin (scale10 (i * 10 ^ Z.of_nat nf + f) (e - Z.of_nat nf)), r3)
      end
  end.

Definition negate (n : number) : number :=
  match n with
  | NaN => NaN
  | Inf b => Inf (negb b)
  | Fin q => Fin (Qopp q)
  end.

(** [StrDecimalLiteral]: an optional sign before the unsigned literal. *)
Definition read_decimal (s : string) : option (number * string) :=
  match s with
  | String c r =>
      if code c =? 43 then read_unsigned_decimal r
      else if code c =? 45 then
        match read_unsigned_decimal r with
        | Some (n, r') => Some (negate n, r')
        | None => None
        end
      else read_unsigned_decimal s
  | EmptyString => None
  end.

(** [NonDecimalIntegerLiteral]: [0x], [0o], [0b] (either case), unsigned. *)
Definition read_non_decimal (s : string) : option (number * string) :=
  match s with
  | String z (String p r) =>
      if code z =? 48 then
        let radix :=
          if (code p =? 120) || (code p =? 88) then 16
          else if (code p =? 111) || (code p =? 79) then 8
          else if (code p =? 98) || (code p =? 66) then 2
          else 0 in
        if radix =? 0 then None
        else let '(v, n, r') := read_digits radix 0 0%nat r in
             match n with
             | O => None
             | S _ => Some (Fin (inject_Z v), r')
             end
      else None
  | _ => None
  end.

(** [StringToNumber]: white space is trimmed, the empty string is 0, and
    anything that is not exactly one numeric literal is [NaN]. *)
Definition StringToNumber (s : string) : number :=
  let t := skip_ws s in
  match t with
  | EmptyString => Fin 0
  | _ =>
      let lit :=
        match read_non_decimal t with
        | Some (n, r) =>
            match skip_ws r with
            | EmptyString => Some (n, r)
            | _ => read_decimal t
            end
        | None => read_decimal t
        end in
      match lit with
      | Some (n, r) => match skip_ws r with EmptyString => n | _ => NaN end
      | None => NaN
      end
  end.

(** The value of the number an integer literal reads as. *)
Definition number_of (z : Z) : number :=
  if overflows z then Inf (z <? 0) else Fin (inject_Z (to_double z)).

Definition ToNumber (v : value) : number :=
  match v with
  | Undefined => NaN
  | Null => Fin 0
  | Bool b => Fin (if b then 1 else 0)
  | Num z => number_of z
  | Str s => StringToNumber s
  end.

(** Half the smallest positive double: an exact value up to it rounds to
    zero, anything above to a positive double. *)
Definition underflow : Q := Qmake 1 (2 ^ 1075)%positive.

(** [v > 0], the relational comparison after [ToNumber]. *)
Definition gt0 (v : value) : bool :=
  match ToNumber v with
  | NaN => false
  | Inf negative => negb negative
  | Fin q => negb (Qle_bool q underflow)
  end.

End JS.

(** ** The string validators of validator.js used by the router *)
Module Validator.

Definition isEmpty (s : string) : bool :=
  match s with
  | EmptyString => true
  | _ => false
  end.

(** [/^[-+]?[0-9]+$/] (leading zeroes are allowed by default). *)
Definition isInt (s : string) : bool := JS.digits1 (JS.strip_sign s).

(** [([0-9]*[.])?[0-9]+] up to the end of the string. *)
Fixpoint numeric_tail (s : string) : bool :=
  match s with
  | EmptyString => false
  | String c r =>
      if JS.code c =? 46 then JS.digits1 r
      else JS.is_digit c
           && match r with
              | EmptyString => true
              | _ => numeric_tail r
              end
  end.

(** [/^[+-]?([0-9]*[.])?[0-9]+$/]. *)
Definition isNumeric (s : string) : bool := numeric_tail (JS.strip_sign s).

(** Strict booleans: one of [true], [false], [1], [0]. *)
Definition isBoolean (s : string) : bool :=
  bool_decide (s ∈ ["true"; "false"; "1"; "0"]).

End Validator.

(** ** Requests, responses and the product table *)

Inductive Method : Type := GET | POST | PUT | PATCH | DELETE.

(** A request below the mount point of the router: the path is [/] or
    [/:id], with the text of the [id] segment (one path segment, never
    empty). *)
Record Request : Type := {
  method : Method;
  params_id : option string;
  req_body : gmap string JS.value
}.

Module Product.
Record t : Type := {
  id : Z;
  name : string;
  price : Q;
  availability : bool
}.
End Product.

(** Modelled from the spec: the product table with its auto-increment
    primary key (the Sequelize model and the database are not part of the
    sources); [next_id] is the value the sequence hands out next. *)
Record Store : Type := {
  rows : list Product.t;
  next_id : Z
}.

Definition empty_store : Store := {| rows := []; next_id := 1 |}.

Inductive Location : Type := in_body | in_params.

Record ValidationError : Type := {
  msg : string;
  path : string;
  location : Location;
  value : JS.value
}.

Inductive Json : Type :=
| data_list (ps : list Product.t)
| data_product (p : Product.t)
| data_text (s : string)
| errors (es : list ValidationError)
| error (s : string)
| no_json.

Record Response : Type := {
  status : Z;
  json : Json
}.

(** What a middleware sees: the request and the validation errors recorded
    on it so far. *)
Record Context : Type := {
  request : Request;
  recorded : list ValidationError
}.

Definition Handler : Type := Context -> Store -> Store * Response.
Definition Middleware : Type := Handler -> Handler.

(** ** express-validator: chains of rules on one field *)
Module ExpressValidator.

(** The string a standard validator is run on. *)
Definition toString (v : JS.value) : string :=
  match v with
  | JS.Undefined | JS.Null => EmptyString
  | JS.Bool b => if b then "true" else "false"
  | JS.Num z => JS.Number_toString z
  | JS.Str s => s
  end.

Inductive Check : Type :=
| Standard (test : string -> bool) (negated : bool)
| Custom (test : JS.value -> bool).

Record Rule : Type := {
  check : Check;
  message : string
}.

Record ValidationChain : Type := {
  where_ : Location;
  field : string;
  rules : list Rule
}.

Definition body (f : string) : ValidationChain :=
  {| where_ := in_body; field := f; rules := [] |}.

Definition param (f : string) : ValidationChain :=
  {| where_ := in_params; field := f; rules := [] |}.

Definition add (k : Check) (c : ValidationChain) : ValidationChain :=
  {| where_ := where_ c; field := field c;
     rules := rules c ++ [{| check := k; message := "Invalid value" |}] |}.

Definition isInt : ValidationChain -> ValidationChain :=
  add (Standard Validator.isInt false).
Definition isNumeric : ValidationChain -> ValidationChain :=
  add (Standard Validator.isNumeric false).
Definition isBoolean : ValidationChain -> ValidationChain :=
  add (Standard Validator.isBoolean false).
(** [notEmpty()] is [not().isEmpty()]. *)
Definition notEmpty : ValidationChain -> ValidationChain :=
  add (Standard Validator.isEmpty true).
Definition custom (f : JS.value -> bool) : ValidationChain -> ValidationChain :=
  add (Custom f).

Fixpoint set_last_message (m : string) (rs : list Rule) : list Rule :=
  match rs with
  | [] => []
  | [r] => [{| check := check r; message := m |}]
  | r :: rs' => r :: set_last_message m rs'
  end.

(** [withMessage] names the error of the validator declared last. *)
Definition withMessage (m : string) (c : ValidationChain) : ValidationChain :=
  {| where_ := where_ c; field := field c; rules := set_last_message m (rules c) |}.

Definition select (req : Request) (l : Location) (f : string) : JS.value :=
  match l with
  | in_body => default JS.Undefined (req_body req !! f)
  | in_params =>
      if String.eqb f "id"
      then match params_id req with
           | Some s => JS.Str s
           | None => JS.Undefined
           end
      else JS.Undefined
  end.

(** A standard validator fails when its test, on the string form of the
    value, disagrees with the negation flag; a custom one when it returns
    a falsy result. *)
Definition passes (k : Check) (v : JS.value) : bool :=
  match k with
  | Standard test negated => xorb (test (toString v)) negated
  | Custom test => test v
  end.

(** Every rule of the chain runs; each failing one records its error.  The
    value of a field is a scalar here, so each rule tests it once (on an
    array express-validator runs a standard validator on the elements). *)
Definition run (c : ValidationChain) (req : Request) : list ValidationError :=
  let v := select req (where_ c) (field c) in
  flat_map
    (fun r =>
       if passes (check r) v then []
       else [{| msg := message r; path := field c; location := where_ c; value := v |}])
    (rules c).

(** A chain used as a middleware: its errors are added to those on the
    request and the next middleware runs. *)
Definition validate (c : ValidationChain) : Middleware :=
  fun next ctx =>
    next {| request := request ctx; recorded := recorded ctx ++ run c (request ctx) |}.

End ExpressValidator.

Notation "c ~> f" := (f c) (at level 40, left associativity, only parsing).

(** Modelled from the spec: [handleInputErrors] of [./middleware], which is
    not part of the sources.  When the validation result is not empty the
    request is answered with 400 and the list of errors, and nothing
    downstream runs; otherwise the next middleware does. *)
Definition handleInputErrors : Middleware :=
  fun next ctx db =>
    match recorded ctx with
    | [] => next ctx db
    | es => (db, {| status := 400; json := errors es |})
    end.

(** The handlers imported from [./handlers/product]. *)
Record Handlers : Type := {
  getProducts : Handler;
  getProductById : Handler;
  createProduct : Handler;
  updateProduct : Handler;
  updateAvailability : Handler;
  deleteProduct : Handler
}.

(** One route: the middlewares in the order they are listed, then the
    handler. *)
Definition route (ms : list Middleware) (h : Handler) : Handler :=
  foldr (fun m k => m k) h ms.

(** ** The router of [src/router.ts] *)
Section Router.
Import ExpressValidator.
Variable H : Handlers.

Definition get_all : Handler := getProducts H.

Definition get_by_id : Handler :=
  route
    [ validate (param "id" ~> isInt ~> withMessage "ID no válido");
      handleInputErrors ]
    (getProductById H).

Definition post : Handler :=
  route
    [ validate (body "name"
                  ~> notEmpty
                  ~> withMessage "El nombre del producto no puede ir vacio");
      validate (body "price"
                  ~> isNumeric
                  ~> withMessage "Valor no válido"
                  ~> notEmpty
                  ~> withMessage "El precio del producto no puede ir vacio"
                  ~> custom (fun value => JS.gt0 value)
                  ~> withMessage "Precio no válido");
      handleInputErrors ]
    (createProduct H).

Definition put : Handler :=
  route
    [ validate (param "id" ~> isInt ~> withMessage "ID no válido");
      validate (body "name"
                  ~> notEmpty
                  ~> withMessage "El nombre del producto no puede ir vacio");
      validate (body "price"
                  ~> isNumeric
                  ~> withMessage "Valor no válido"
                  ~> notEmpty
                  ~> withMessage "El precio del producto no puede ir vacio"
                  ~> custom (fun value => JS.gt0 value)
                  ~> withMessage "Precio no válido");
      validate (body "availability"
                  ~> isBoolean
                  ~> withMessage "Valor para disponibilidad no válido");
      handleInputErrors ]
    (updateProduct H).

Definition patch : Handler :=
  route
    [ validate (param "id" ~> isInt ~> withMessage "ID no válido");
      handleInputErrors ]
    (updateAvailability H).

Definition delete_ : Handler :=
  route
    [ validate (param "id" ~> isInt ~> withMessage "ID no válido");
      handleInputErrors ]
    (deleteProduct H).

(** A request whose method and path match no route is left to the
    application, which answers 404. *)
Definition router (req : Request) (db : Store) : Store * Response :=
  let ctx := {| request := req; recorded := [] |} in
  match method req, params_id req with
  | GET, None => get_all ctx db
  | GET, Some _ => get_by_id ctx db
  | POST, None => post ctx db
  | PUT, Some _ => put ctx db
  | PATCH, Some _ => patch ctx db
  | DELETE, Some _ => delete_ ctx db
  | _, _ => (db, {| status := 404; json := no_json |})
  end.

End Router.

(** ** The product handlers *)
Module ProductHandlers.
Import ExpressValidator.

Fixpoint digits_value (acc : Z) (s : string) : Z :=
  match s with
  | EmptyString => acc
  | String c r => digits_value (10 * acc + (JS.code c - 48)) r
  end.

(** The integer a validated [id] segment denotes. *)
Definition parse_int (s : string) : option Z :=
  if Validator.isInt s then
    let v := digits_value 0 (JS.strip_sign s) in
    Some (match s with
          | String c _ => if JS.code c =? 45 then - v else v
          | EmptyString => v
          end)
  else None.

Definition has_id (k : Z) (p : Product.t) : bool := Product.id p =? k.

(** Look-up by primary key. *)
Definition findByPk (db : Store) (k : Z) : option Product.t :=
  find (has_id k) (rows db).

Definition pk (ctx : Context) : option Z :=
  params_id (request ctx) ≫= parse_int.

Definition input (ctx : Context) (f : string) : JS.value :=
  select (request ctx) in_body f.

(** The numeric value of a price that passed validation. *)
Definition to_price (v : JS.value) : option Q :=
  match JS.ToNumber v with
  | JS.Fin q => Some q
  | _ => None
  end.

(** The boolean a value that passed [isBoolean] stands for. *)
Definition to_boolean (v : JS.value) : option bool :=
  let s := toString v in
  if String.eqb s "true" || String.eqb s "1" then Some true
  else if String.eqb s "false" || String.eqb s "0" then Some false
  else None.

Definition not_found : Response :=
  {| status := 404; json := error "Producto no encontrado" |}.

(** A failure of the store, which the handlers do not treat. *)
Definition server_error : Response :=
  {| status := 500; json := no_json |}.

(** Modelled from the spec: [getProducts] of [./handlers/product], which is
    not part of the sources.  Returns every stored product; always
    succeeds. *)
Definition getProducts : Handler :=
  fun _ db => (db, {| status := 200; json := data_list (rows db) |}).

(** Modelled from the spec: [getProductById] of [./handlers/product].  Looks
    the id up by primary key; signals not found when it is absent,
    otherwise returns the product. *)
Definition getProductById : Handler :=
  fun ctx db =>
    match pk ctx ≫= findByPk db with
    | None => (db, not_found)
    | Some p => (db, {| status := 200; json := data_product p |})
    end.

(** Modelled from the spec: [createProduct] of [./handlers/product].  Takes
    the validated name and price, assigns a new id, sets availability to
    true, persists and returns the new record with 201.  A price the store
    cannot take as a number is a store failure. *)
Definition createProduct : Handler :=
  fun ctx db =>
    match to_price (input ctx "price") with
    | Some q =>
        let p := {| Product.id := next_id db;
                    Product.name := toString (input ctx "name");
                    Product.price := q;
                    Product.availability := true |} in
        ({| rows := rows db ++ [p]; next_id := next_id db + 1 |},
         {| status := 201; json := data_product p |})
    | None => (db, server_error)
    end.

(** Modelled from the spec: [updateProduct] of [./handlers/product].  Signals
    not found when the id is absent (before any change); otherwise
    overwrites name, price and availability of the record, keeps its id,
    persists and returns it. *)
Definition updateProduct : Handler :=
  fun ctx db =>
    match pk ctx ≫= findByPk db with
    | None => (db, not_found)
    | Some p =>
        match to_price (input ctx "price"), to_boolean (input ctx "availability") with
        | Some q, Some a =>
            let p' := {| Product.id := Product.id p;
                         Product.name := toString (input ctx "name");
                         Product.price := q;
                         Product.availability := a |} in
            ({| rows := map (fun r => if has_id (Product.id p) r then p' else r) (rows db);
                next_id := next_id db |},
             {| status := 200; json := data_product p' |})
        | _, _ => (db, server_error)
        end
    end.

(** Modelled from the spec: [updateAvailability] of [./handlers/product].
    The body is ignored.  Signals not found when the id is absent;
    otherwise flips availability to its complement, changes no other
    field, persists and returns the record. *)
Definition updateAvailability : Handler :=
  fun ctx db =>
    match pk ctx ≫= findByPk db with
    | None => (db, not_found)
    | Some p =>
        let p' := {| Product.id := Product.id p;
                     Product.name := Product.name p;
                     Product.price := Product.price p;
                     Product.availability := negb (Product.availability p) |} in
        ({| rows := map (fun r => if has_id (Product.id p) r then p' else r) (rows db);
            next_id := next_id db |},
         {| status := 200; json := data_product p' |})
    end.

(** Modelled from the spec: [deleteProduct] of [./handlers/product].  Signals
    not found when the id is absent; otherwise removes the record for good
    and returns a confirmation. *)
Definition deleteProduct : Handler :=
  fun ctx db =>
    match pk ctx ≫= findByPk db with
    | None => (db, not_found)
    | Some p =>
        ({| rows := filter (fun r => has_id (Product.id p) r = false) (rows db);
            next_id := next_id db |},
         {| status := 200; json := data_text "Producto Eliminado" |})
    end.

Definition handlers : Handlers :=
  Build_Handlers getProducts getProductById createProduct updateProduct
    updateAvailability deleteProduct.

End ProductHandlers.

(** ** The application: the router over the product handlers *)

Definition api : Request -> Store -> Store * Response :=
  router ProductHandlers.handlers.

Definition step (db : Store) (req : Request) : Store := fst (api req db).

(** The store after a sequence of requests, served one after the other. *)
Definition serve (db : Store) (reqs : list Request) : Store :=
  foldl step db reqs.

(** The states the store can be in: those a sequence of requests leads to
    from the empty table. *)
Definition reachable (db : Store) : Prop :=
  exists reqs, db = serve empty_store reqs.

Definition ids (db : Store) : list Z := map Product.id (rows db).

Definition GET_ (i : string) (b : gmap string JS.value) : Request :=
  {| method := GET; params_id := Some i; req_body := b |}.
Definition POST_ (b : gmap string JS.value) : Request :=
  {| method := POST; params_id := None; req_body := b |}.
Definition PUT_ (i : string) (b : gmap string JS.value) : Request :=
  {| method := PUT; params_id := Some i; req_body := b |}.
Definition PATCH_ (i : string) (b : gmap string JS.value) : Request :=
  {| method := PATCH; params_id := Some i; req_body := b |}.
Definition DELETE_ (i : string) (b : gmap string JS.value) : Request :=
  {| method := DELETE; params_id := Some i; req_body := b |}.

(** ** Vocabulary of the statements *)
Section Vocabulary.
Import ExpressValidator.

Definition bad_request (es : list ValidationError) : Response :=
  {| status := 400; json := errors es |}.

(** The errors a list of chains records on a request, in declaration
    order. *)
Definition validation_errors (cs : list ValidationChain) (req : Request)
  : list ValidationError :=
  flat_map (fun c => run c req) cs.

(** The rule on the path parameter shared by the four [/:id] routes. *)
Definition id_rule : ValidationChain :=
  param "id" ~> isInt ~> withMessage "ID no válido".

(** The body rules of [router.post]. *)
Definition post_rules : list ValidationChain :=
  [ body "name"
      ~> notEmpty
      ~> withMessage "El nombre del producto no puede ir vacio";
    body "price"
      ~> isNumeric
      ~> withMessage "Valor no válido"
      ~> notEmpty
      ~> withMessage "El precio del producto no puede ir vacio"
      ~> custom (fun value => JS.gt0 value)
      ~> withMessage "Precio no válido" ].

(** The body rules of [router.put]. *)
Definition put_body_rules : list ValidationChain :=
  post_rules
  ++ [ body "availability"
         ~> isBoolean
         ~> withMessage "Valor para disponibilidad no válido" ].

Definition id_error (i : string) : ValidationError :=
  {| msg := "ID no válido"; path := "id"; location := in_params; value := JS.Str i |}.

Definition id_errors (i : string) : list ValidationError :=
  if Validator.isInt i then [] else [id_error i].

Definition body_error (m f : string) (v : JS.value) : ValidationError :=
  {| msg := m; path := f; location := in_body; value := v |}.

Definition name_errors (v : JS.value) : list ValidationError :=
  if Validator.isEmpty (toString v)
  then [body_error "El nombre del producto no puede ir vacio" "name" v]
  else [].

Definition price_errors (v : JS.value) : list ValidationError :=
  (if Validator.isNumeric (toString v) then []
   else [body_error "Valor no válido" "price" v])
  ++ (if Validator.isEmpty (toString v)
      then [body_error "El precio del producto no puede ir vacio" "price" v]
      else [])
  ++ (if JS.gt0 v then [] else [body_error "Precio no válido" "price" v]).

Definition availability_errors (v : JS.value) : list ValidationError :=
  if Validator.isBoolean (toString v) then []
  else [body_error "Valor para disponibilidad no válido" "availability" v].

(** The value of a body field, [Undefined] when the field is absent. *)
Definition field_of (b : gmap string JS.value) (f : string) : JS.value :=
  default JS.Undefined (b !! f).

(** The body passes the rules of [router.put]. *)
Definition valid_put_body (b : gmap string JS.value) : Prop :=
  name_errors (field_of b "name") = []
  /\ price_errors (field_of b "price") = []
  /\ availability_errors (field_of b "availability") = [].

(** The bodies [{name, price}] and [{name, price, availability}]. *)
Definition product_body (n p : JS.value) : gmap string JS.value :=
  <["price" := p]> (<["name" := n]> ∅).

Definition full_body (n p a : JS.value) : gmap string JS.value :=
  <["availability" := a]> (product_body n p).

(** The product of the test suite, and the table after it was created. *)
Definition mouse : gmap string JS.value :=
  product_body (JS.Str "Mouse - Testing") (JS.Num 50).

Definition mouse_row : Product.t :=
  {| Product.id := 1; Product.name := "Mouse - Testing";
     Product.price := 50; Product.availability := true |}.

Definition one_mouse : Store := serve empty_store [POST_ mouse].

(** The context a request enters its route with. *)
Definition incoming (req : Request) : Context :=
  {| request := req; recorded := [] |}.

Definition positive_price (p : Product.t) : Prop := (0 < Product.price p)%Q.

Definition toggled (p : Product.t) : Product.t :=
  {| Product.id := Product.id p;
     Product.name := Product.name p;
     Product.price := Product.price p;
     Product.availability := negb (Product.availability p) |}.

(** What one request can do to the table. *)
Inductive transition (db : Store) : Store -> Prop :=
| t_none : transition db db
| t_create (n : string) (q : Q) :
    (0 < q)%Q ->
    transition db
      {| rows := rows db
                 ++ [{| Product.id := next_id db; Product.name := n;
                        Product.price := q; Product.availability := true |}];
         next_id := next_id db + 1 |}
| t_replace (k : Z) (n : string) (q : Q) (a : bool) :
    (0 < q)%Q ->
    transition db
      {| rows := map (fun r => if ProductHandlers.has_id k r
                               then {| Product.id := k; Product.name := n;
                                       Product.price := q; Product.availability := a |}
                               else r) (rows db);
         next_id := next_id db |}
| t_toggle (p : Product.t) :
    In p (rows db) ->
    transition db
      {| rows := map (fun r => if ProductHandlers.has_id (Product.id p) r
                               then toggled p else r) (rows db);
         next_id := next_id db |}
| t_delete (k : Z) :
    transition db
      {| rows := filter (fun r => ProductHandlers.has_id k r = false) (rows db);
         next_id := next_id db |}.

(** The invariant of the table: positive prices, ids below the sequence,
    no id twice. *)
Definition consistent (db : Store) : Prop :=
  Forall positive_price (rows db)
  /\ 0 < next_id db
  /\ Forall (fun k => 0 < k < next_id db) (ids db)
  /\ NoDup (ids db).

End Vocabulary.

(** ** Vocabulary of the statements on the rules and on request sequences *)
Section RulesAndSequences.
Import ExpressValidator.

(** The three body chains, as [router.post] and [router.put] declare them. *)
Definition name_rule : ValidationChain :=
  body "name"
    ~> notEmpty
    ~> withMessage "El nombre del producto no puede ir vacio".

Definition price_rule : ValidationChain :=
  body "price"
    ~> isNumeric
    ~> withMessage "Valor no válido"
    ~> notEmpty
    ~> withMessage "El precio del producto no puede ir vacio"
    ~> custom (fun value => JS.gt0 value)
    ~> withMessage "Precio no válido".

Definition availability_rule : ValidationChain :=
  body "availability"
    ~> isBoolean
    ~> withMessage "Valor para disponibilidad no válido".

(** The messages of [router.post] and of [router.put], in the order their
    rules are declared. *)
Definition post_messages : list string :=
  [ "El nombre del producto no puede ir vacio";
    "Valor no válido";
    "El precio del producto no puede ir vacio";
    "Precio no válido" ].

Definition put_messages : list string :=
  "ID no válido" :: post_messages ++ ["Valor para disponibilidad no válido"].

(** The answers to a sequence of requests, served one after the other. *)
Fixpoint answers (db : Store) (reqs : list Request) : list Response :=
  match reqs with
  | [] => []
  | req :: rest => snd (api req db) :: answers (step db req) rest
  end.

Definition is_created (a : Response) : bool := status a =? 201.

Definition is_deleted (a : Response) : bool :=
  match json a with
  | data_text _ => true
  | _ => false
  end.

Definition count (f : Response -> bool) (l : list Response) : nat :=
  length (List.filter f l).

End RulesAndSequences.

(** ** Proof steps used more than once *)

(** Turns a boolean test on integers in [H] into the proposition it decides. *)
Ltac bool_to_prop H :=
  repeat first
    [ rewrite orb_true_iff in H | rewrite andb_true_iff in H
    | rewrite Z.leb_le in H | rewrite Z.eqb_eq in H ].

(** Opens the handler a route of the application ends in. *)
Ltac enter_handler :=
  lazymatch goal with
  | |- context [?proj ProductHandlers.handlers] =>
      unfold proj, ProductHandlers.handlers
  end.

(** * Properties *)

(** ** Decimal numerals: printing an integer and reading it back *)
Section Numerals.
Import ProductHandlers.

Lemma all_digits_string_of_uint (u : Decimal.uint) :
  JS.all_digits (NilEmpty.string_of_uint u) = true.
Proof. induction u; simpl; auto. Qed.

Lemma string_of_uint_nonempty (u : Decimal.uint) :
  u <> Decimal.Nil -> NilEmpty.string_of_uint u <> EmptyString.
Proof. destruct u; simpl; congruence. Qed.

Lemma digits1_string_of_uint (u : Decimal.uint) :
  u <> Decimal.Nil -> JS.digits1 (NilEmpty.string_of_uint u) = true.
Proof.
  intros Hu. unfold JS.digits1.
  pose proof (all_digits_string_of_uint u) as Ha.
  pose proof (string_of_uint_nonempty u Hu) as Hn.
  destruct (NilEmpty.string_of_uint u); [congruence | exact Ha].
Qed.

Lemma head_string_of_uint_not_sign (u : Decimal.uint) :
  JS.strip_sign (NilEmpty.string_of_uint u) = NilEmpty.string_of_uint u.
Proof. destruct u; reflexivity. Qed.

Lemma N_to_uint_nonnil (n : N) : N.to_uint n <> Decimal.Nil.
Proof.
  destruct n; simpl; [discriminate | apply Unsigned.to_uint_nonnil].
Qed.

(** Reading the digits of a numeral, most significant first. *)
Lemma digits_value_acc (u : Decimal.uint) (acc : positive) :
  digits_value (Z.pos acc) (NilEmpty.string_of_uint u)
  = Z.pos (Pos.of_uint_acc u acc).
Proof.
  revert acc.
  induction u; intros acc; simpl; try reflexivity;
    unfold JS.code; simpl;
    match goal with
    | |- digits_value ?a _ = _ =>
        match goal with
        | |- _ = Z.pos (Pos.of_uint_acc _ ?b) =>
            replace a with (Z.pos b) by lia; apply IHu
        end
    end.
Qed.

Lemma digits_value_uint (u : Decimal.uint) :
  digits_value 0 (NilEmpty.string_of_uint u) = Z.of_N (Pos.of_uint u).
Proof.
  induction u; simpl; try reflexivity; try exact IHu;
    match goal with
    | |- digits_value ?a _ = Z.pos (Pos.of_uint_acc _ ?b) =>
        change a with (Z.pos b); apply digits_value_acc
    end.
Qed.

Lemma isInt_Z_to_string (z : Z) : Validator.isInt (JS.Z_to_string z) = true.
Proof.
  unfold Validator.isInt, JS.Z_to_string.
  destruct z as [|p|p]; simpl.
  - reflexivity.
  - rewrite head_string_of_uint_not_sign.
    apply digits1_string_of_uint, Unsigned.to_uint_nonnil.
  - apply digits1_string_of_uint, Unsigned.to_uint_nonnil.
Qed.

Lemma parse_int_Z_to_string (z : Z) : parse_int (JS.Z_to_string z) = Some z.
Proof.
  unfold parse_int. rewrite isInt_Z_to_string. f_equal.
  unfold JS.Z_to_string.
  destruct z as [|p|p]; simpl.
  - reflexivity.
  - rewrite head_string_of_uint_not_sign, digits_value_uint.
    rewrite DecimalPos.Unsigned.of_to.
    pose proof (Unsigned.to_uint_nonnil p) as Hn.
    destruct (Pos.to_uint p) eqn:E; simpl; try congruence; reflexivity.
  - rewrite digits_value_uint, DecimalPos.Unsigned.of_to. reflexivity.
Qed.

Lemma parse_int_isInt (s : string) (k : Z) :
  parse_int s = Some k -> Validator.isInt s = true.
Proof. unfold parse_int. destruct (Validator.isInt s); congruence. Qed.

Lemma isInt_parse_int (s : string) :
  Validator.isInt s = true -> exists k, parse_int s = Some k.
Proof. unfold parse_int. intros ->. eauto. Qed.

(** *** Doubles read from integer literals *)

Lemma to_double_small (z : Z) : Z.abs z < 2 ^ 53 -> JS.to_double z = z.
Proof.
  intros Hz. unfold JS.to_double.
  replace (Z.abs z <? 2 ^ 53) with true by (symmetry; apply Z.ltb_lt; exact Hz).
  reflexivity.
Qed.

(** From 2^53 on: the significand kept has 53 bits, or is 2^53 after a
    carry, and differs from the quotient by the rounding only. *)
Lemma to_double_big (z : Z) :
  2 ^ 53 <= Z.abs z ->
  let a := Z.abs z in
  let e := Z.log2 a - 52 in
  exists m' : Z,
    JS.to_double z = Z.sgn z * (m' * 2 ^ e)
    /\ 1 <= e
    /\ 2 ^ 52 <= a / 2 ^ e < 2 ^ 53
    /\ (m' = a / 2 ^ e
        \/ (m' = a / 2 ^ e + 1
            /\ (2 ^ (e - 1) < a mod 2 ^ e
                \/ (a mod 2 ^ e = 2 ^ (e - 1) /\ Z.odd (a / 2 ^ e) = true))))
    /\ (m' = a / 2 ^ e ->
        a mod 2 ^ e < 2 ^ (e - 1)
        \/ (a mod 2 ^ e = 2 ^ (e - 1) /\ Z.odd (a / 2 ^ e) = false)).
Proof.
  intros Hz a e.
  assert (Hpos : 0 < a) by (unfold a; pose proof (Z.pow_pos_nonneg 2 53); lia).
  assert (HL : 53 <= Z.log2 a).
  { rewrite <- (Z.log2_pow2 53) by lia. apply Z.log2_le_mono. exact Hz. }
  assert (He : 1 <= e) by (unfold e; lia).
  destruct (Z.log2_spec a Hpos) as [Hlo Hhi].
  assert (H2e : 0 < 2 ^ e) by (apply Z.pow_pos_nonneg; lia).
  assert (Hsplit : 2 ^ Z.log2 a = 2 ^ e * 2 ^ 52).
  { rewrite <- Z.pow_add_r by lia. f_equal. unfold e. lia. }
  assert (Hsplit' : 2 ^ Z.succ (Z.log2 a) = 2 ^ e * 2 ^ 53).
  { rewrite <- Z.pow_add_r by lia. f_equal. unfold e. lia. }
  assert (Hm : 2 ^ 52 <= a / 2 ^ e < 2 ^ 53).
  { split.
    - apply Z.div_le_lower_bound; [exact H2e | lia].
    - apply Z.div_lt_upper_bound; [exact H2e | lia]. }
  unfold JS.to_double. fold a.
  replace (a <? 2 ^ 53) with false by (symmetry; apply Z.ltb_ge; exact Hz).
  fold e. cbv zeta.
  destruct ((2 ^ (e - 1) <? a mod 2 ^ e)
            || ((a mod 2 ^ e =? 2 ^ (e - 1)) && Z.odd (a / 2 ^ e))) eqn:Eup.
  - exists (a / 2 ^ e + 1).
    split; [reflexivity|]. split; [exact He|]. split; [exact Hm|]. split; [|lia].
    right. split; [reflexivity|].
    apply orb_true_iff in Eup as [Eup|Eup].
    + left. apply Z.ltb_lt, Eup.
    + right. apply andb_true_iff in Eup as [E1 E2]. apply Z.eqb_eq in E1. auto.
  - exists (a / 2 ^ e).
    split; [reflexivity|]. split; [exact He|]. split; [exact Hm|].
    split; [left; reflexivity|].
    intros _. apply orb_false_iff in Eup as [E1 E2].
    apply Z.ltb_ge in E1. apply andb_false_iff in E2.
    destruct (Z.eq_dec (a mod 2 ^ e) (2 ^ (e - 1))) as [Heq|Hne].
    + right. split; [exact Heq|]. destruct E2 as [E2|E2]; [|exact E2].
      apply Z.eqb_neq in E2. contradiction.
    + left. lia.
Qed.

Lemma abs_sgn_mul (z x : Z) : z <> 0 -> 0 <= x -> Z.abs (Z.sgn z * x) = x.
Proof. intros Hz Hx. destruct z; simpl; try congruence; lia. Qed.

(** A double read from an integer of [L+1] bits, [L >= 53], lies between
    2^L and 2^(L+1). *)
Lemma to_double_bounds (z : Z) :
  2 ^ 53 <= Z.abs z ->
  2 ^ Z.log2 (Z.abs z) <= Z.abs (JS.to_double z) <= 2 ^ (Z.log2 (Z.abs z) + 1).
Proof.
  intros Hz.
  destruct (to_double_big z Hz) as (m' & Hd & He & Hm & Hm' & _).
  set (a := Z.abs z) in *. set (e := Z.log2 a - 52) in *.
  assert (Hz0 : z <> 0).
  { intros ->. pose proof (Z.pow_pos_nonneg 2 53). simpl in Hz. lia. }
  assert (H2e : 0 < 2 ^ e) by (apply Z.pow_pos_nonneg; lia).
  assert (Hlo : 2 ^ Z.log2 a = 2 ^ 52 * 2 ^ e).
  { rewrite <- Z.pow_add_r by lia. f_equal. unfold e. lia. }
  assert (Hhi : 2 ^ (Z.log2 a + 1) = 2 ^ 53 * 2 ^ e).
  { rewrite <- Z.pow_add_r by lia. f_equal. unfold e. lia. }
  assert (Hr : 2 ^ 52 <= m' <= 2 ^ 53) by (destruct Hm' as [->|[-> _]]; lia).
  rewrite Hd, abs_sgn_mul by (try exact Hz0; nia).
  rewrite Hlo, Hhi. split; apply Z.mul_le_mono_nonneg_r; lia.
Qed.

Lemma to_double_sign (z : Z) :
  (0 < z -> 0 < JS.to_double z) /\ (z <= 0 -> JS.to_double z <= 0).
Proof.
  destruct (Z.lt_ge_cases (Z.abs z) (2 ^ 53)) as [Hs|Hb].
  - rewrite (to_double_small z Hs). lia.
  - destruct (to_double_big z Hb) as (m' & Hd & He & Hm & Hm' & _).
    assert (H2e : 0 < 2 ^ (Z.log2 (Z.abs z) - 52)) by (apply Z.pow_pos_nonneg; lia).
    assert (Hr : 0 < m') by
      (pose proof (Z.pow_pos_nonneg 2 52); destruct Hm' as [->|[-> _]]; lia).
    rewrite Hd. destruct z; simpl Z.sgn; split; intros; try lia; nia.
Qed.

(** The doubles below 10^21 are those read from the integers below
    10^21 - 65536: the doubles next to 10^21 are 131072 apart, and the
    integer half way rounds up to 10^21, whose significand is even. *)
Lemma to_double_below_1e21 (z : Z) :
  Z.abs (JS.to_double z) < 10 ^ 21 <-> Z.abs z < 10 ^ 21 - 65536.
Proof.
  assert (E53 : 2 ^ 53 = 9007199254740992) by reflexivity.
  assert (E69 : 2 ^ 69 = 590295810358705651712) by reflexivity.
  assert (E70 : 2 ^ 70 = 1180591620717411303424) by reflexivity.
  assert (E21 : 10 ^ 21 = 1000000000000000000000) by reflexivity.
  destruct (Z.lt_ge_cases (Z.abs z) (2 ^ 53)) as [Hs|Hb].
  - rewrite (to_double_small z Hs). lia.
  - pose proof (to_double_bounds z Hb) as [Hlo Hhi].
    destruct (to_double_big z Hb) as (m' & Hd & He & Hm & Hm' & Hdown).
    set (a := Z.abs z) in *. set (L := Z.log2 a) in *.
    assert (Hpos : 0 < a) by lia.
    destruct (Z.log2_spec a Hpos) as [Ha1 Ha2]. fold L in Ha1, Ha2.
    destruct (Z.lt_trichotomy L 69) as [Hlt|[Heq|Hgt]].
    + assert (H1 : 2 ^ (L + 1) <= 2 ^ 69) by (apply Z.pow_le_mono_r; lia).
      replace (Z.succ L) with (L + 1) in Ha2 by lia. lia.
    + assert (Hz0 : z <> 0) by (intros ->; simpl in Hb; lia).
      assert (E17 : 2 ^ (L - 52) = 131072) by (rewrite Heq; reflexivity).
      assert (E16 : 2 ^ (L - 52 - 1) = 65536) by (rewrite Heq; reflexivity).
      rewrite E17, E16 in *.
      pose proof (Z.div_mod a 131072 ltac:(lia)) as Hdm.
      pose proof (Z.mod_pos_bound a 131072 ltac:(lia)) as Hr.
      set (q := a / 131072) in *. set (r := a mod 131072) in *.
      assert (Hodd : Z.odd q = false -> q <> 7629394531249999).
      { intros Ho ->. vm_compute in Ho. discriminate Ho. }
      rewrite Hd, abs_sgn_mul by (try exact Hz0; lia).
      destruct Hm' as [->|[-> Hup]].
      * destruct (Hdown eq_refl) as [Hd1|[Hd1 Hd2]]; [lia|].
        specialize (Hodd Hd2). lia.
      * destruct Hup as [Hup|[Hup _]]; lia.
    + assert (H1 : 2 ^ 70 <= 2 ^ L) by (apply Z.pow_le_mono_r; lia). lia.
Qed.

(** A double below 10^21 is finite. *)
Lemma below_1e21_finite (z : Z) :
  Z.abs (JS.to_double z) < 10 ^ 21 -> JS.overflows z = false.
Proof.
  intros Hz. unfold JS.overflows. apply Z.leb_gt.
  assert (H : 10 ^ 21 < 2 ^ 1024) by reflexivity. lia.
Qed.


End Numerals.

(** ** Routes: the validation chains and the gate *)
Section Routing.
Import ExpressValidator.

Lemma route_validate_gate (cs : list ValidationChain) (h : Handler)
      (req : Request) (acc : list ValidationError) (db : Store) :
  route (map validate cs ++ [handleInputErrors]) h
        {| request := req; recorded := acc |} db
  = match acc ++ validation_errors cs req with
    | [] => h {| request := req; recorded := [] |} db
    | es => (db, bad_request es)
    end.
Proof.
  revert acc. induction cs as [|c cs IH]; intros acc; simpl.
  - rewrite app_nil_r. unfold handleInputErrors. simpl.
    destruct acc; reflexivity.
  - unfold validate at 1. simpl. rewrite IH, <- app_assoc. reflexivity.
Qed.

(** A validated route either stops at the gate with 400, leaving the table
    alone, or hands an error-free request to its handler. *)
Lemma validated_route (cs : list ValidationChain) (h : Handler)
      (req : Request) (db : Store) :
  route (map validate cs ++ [handleInputErrors]) h
        {| request := req; recorded := [] |} db
  = match validation_errors cs req with
    | [] => h {| request := req; recorded := [] |} db
    | es => (db, bad_request es)
    end.
Proof. apply (route_validate_gate cs h req []). Qed.

Lemma run_id_rule (m : Method) (i : string) (b : gmap string JS.value) :
  run id_rule {| method := m; params_id := Some i; req_body := b |}
  = id_errors i.
Proof.
  unfold id_rule, run, id_errors. simpl.
  destruct (Validator.isInt i); reflexivity.
Qed.

Lemma id_rule_errors (m : Method) (i : string) (b : gmap string JS.value) :
  validation_errors [id_rule]
    {| method := m; params_id := Some i; req_body := b |}
  = id_errors i.
Proof.
  unfold validation_errors. simpl. rewrite app_nil_r. apply run_id_rule.
Qed.

Lemma validation_errors_cons (c : ValidationChain) (cs : list ValidationChain)
      (req : Request) :
  validation_errors (c :: cs) req = run c req ++ validation_errors cs req.
Proof. reflexivity. Qed.

Lemma post_rules_errors (req : Request) :
  validation_errors post_rules req
  = name_errors (field_of (req_body req) "name")
    ++ price_errors (field_of (req_body req) "price").
Proof.
  unfold validation_errors, post_rules, run, name_errors, price_errors, field_of.
  simpl.
  destruct (Validator.isEmpty _), (Validator.isNumeric _), (Validator.isEmpty _),
    (JS.gt0 _); reflexivity.
Qed.

Lemma put_body_rules_errors (req : Request) :
  validation_errors put_body_rules req
  = name_errors (field_of (req_body req) "name")
    ++ price_errors (field_of (req_body req) "price")
    ++ availability_errors (field_of (req_body req) "availability").
Proof.
  unfold put_body_rules, validation_errors.
  rewrite flat_map_app. fold (validation_errors post_rules req).
  rewrite post_rules_errors, <- app_assoc. f_equal. f_equal.
  unfold run, availability_errors, field_of. simpl.
  destruct (Validator.isBoolean _); reflexivity.
Qed.

End Routing.

(** ** The routes of the router, for any handlers behind them *)
Section Routes.
Import ExpressValidator.
Variable H : Handlers.

Lemma router_get (i : string) (b : gmap string JS.value) (db : Store) :
  router H (GET_ i b) db
  = match id_errors i with
    | [] => getProductById H (incoming (GET_ i b)) db
    | es => (db, bad_request es)
    end.
Proof.
  unfold router, GET_, get_by_id; simpl.
  etransitivity; [apply (validated_route [id_rule])|].
  rewrite id_rule_errors. reflexivity.
Qed.

Lemma router_patch (i : string) (b : gmap string JS.value) (db : Store) :
  router H (PATCH_ i b) db
  = match id_errors i with
    | [] => updateAvailability H (incoming (PATCH_ i b)) db
    | es => (db, bad_request es)
    end.
Proof.
  unfold router, PATCH_, patch; simpl.
  etransitivity; [apply (validated_route [id_rule])|].
  rewrite id_rule_errors. reflexivity.
Qed.

Lemma router_delete (i : string) (b : gmap string JS.value) (db : Store) :
  router H (DELETE_ i b) db
  = match id_errors i with
    | [] => deleteProduct H (incoming (DELETE_ i b)) db
    | es => (db, bad_request es)
    end.
Proof.
  unfold router, DELETE_, delete_; simpl.
  etransitivity; [apply (validated_route [id_rule])|].
  rewrite id_rule_errors. reflexivity.
Qed.

Lemma router_post (b : gmap string JS.value) (db : Store) :
  router H (POST_ b) db
  = match name_errors (field_of b "name") ++ price_errors (field_of b "price") with
    | [] => createProduct H (incoming (POST_ b)) db
    | es => (db, bad_request es)
    end.
Proof.
  unfold router, POST_, post; simpl.
  etransitivity; [apply (validated_route post_rules)|].
  rewrite post_rules_errors. reflexivity.
Qed.

Lemma router_put (i : string) (b : gmap string JS.value) (db : Store) :
  router H (PUT_ i b) db
  = match id_errors i
          ++ name_errors (field_of b "name")
          ++ price_errors (field_of b "price")
          ++ availability_errors (field_of b "availability") with
    | [] => updateProduct H (incoming (PUT_ i b)) db
    | es => (db, bad_request es)
    end.
Proof.
  unfold router, PUT_, put; simpl.
  etransitivity; [apply (validated_route (id_rule :: put_body_rules))|].
  rewrite validation_errors_cons, run_id_rule, put_body_rules_errors.
  reflexivity.
Qed.

End Routes.

(** ** Prices: what passes the price rules is a positive number *)
Section Prices.
Import ExpressValidator ProductHandlers.

Lemma underflow_positive : (0 < JS.underflow)%Q.
Proof. reflexivity. Qed.

Lemma gt0_positive (v : JS.value) (q : Q) :
  JS.gt0 v = true -> to_price v = Some q -> (0 < q)%Q.
Proof.
  unfold JS.gt0, to_price. destruct (JS.ToNumber v) as [| |q']; try discriminate.
  intros Hq [= <-].
  apply negb_true_iff in Hq.
  destruct (Qlt_le_dec JS.underflow q') as [Hlt|Hle].
  - eapply Qlt_trans; [apply underflow_positive | exact Hlt].
  - apply Qle_bool_iff in Hle. congruence.
Qed.

Lemma is_digit_digit_of (c : ascii) :
  JS.is_digit c = true -> JS.digit_of 10 c = Some (JS.code c - 48).
Proof.
  unfold JS.is_digit, JS.digit_of. intros Hc. rewrite Hc.
  apply andb_true_iff in Hc as [H1 H2].
  apply Z.leb_le in H1, H2.
  destruct (JS.code c - 48 <? 10) eqn:E; [reflexivity|].
  apply Z.ltb_ge in E. lia.
Qed.

Lemma read_digits_all (s : string) (acc : Z) (n : nat) :
  JS.all_digits s = true ->
  exists v, JS.read_digits 10 acc n s = (v, (n + String.length s)%nat, EmptyString).
Proof.
  revert acc n. induction s as [|c r IH]; intros acc n Hs; simpl in *.
  - exists acc. rewrite Nat.add_0_r. reflexivity.
  - apply andb_true_iff in Hs as [Hc Hr].
    rewrite (is_digit_digit_of c Hc).
    destruct (IH (10 * acc + (JS.code c - 48)) (S n) Hr) as [v Hv].
    exists v. rewrite Hv. f_equal. f_equal. simpl. lia.
Qed.

Lemma dot_not_digit (c : ascii) :
  JS.code c = 46 -> JS.digit_of 10 c = None.
Proof. unfold JS.digit_of. intros ->. reflexivity. Qed.

Lemma numeric_tail_read (s : string) :
  Validator.numeric_tail s = true ->
  forall (acc : Z) (n : nat),
    (exists v, JS.read_digits 10 acc n s = (v, (n + String.length s)%nat, EmptyString))
    \/ (exists v m c r,
          JS.read_digits 10 acc n s = (v, m, String c r)
          /\ JS.code c = 46 /\ JS.digits1 r = true).
Proof.
  induction s as [|c r IH]; simpl; [discriminate|].
  intros Hs acc n.
  destruct (JS.code c =? 46) eqn:Hdot.
  - apply Z.eqb_eq in Hdot. right. rewrite (dot_not_digit c Hdot). eauto 10.
  - apply andb_true_iff in Hs as [Hc Hr].
    rewrite (is_digit_digit_of c Hc).
    destruct r as [|c' r'].
    + left. simpl. exists (10 * acc + (JS.code c - 48)). repeat f_equal. lia.
    + destruct (IH Hr (10 * acc + (JS.code c - 48)) (S n)) as [[v Hv]|(v & m & d & t & Hv & Hd & Ht)].
      * left. exists v. rewrite Hv. f_equal. f_equal. simpl. lia.
      * right. exists v, m, d, t. auto.
Qed.

Lemma numeric_tail_head (c : ascii) (r : string) :
  Validator.numeric_tail (String c r) = true -> 46 <= JS.code c <= 57.
Proof.
  simpl. destruct (JS.code c =? 46) eqn:Hdot.
  - apply Z.eqb_eq in Hdot. lia.
  - intros Hs. apply andb_true_iff in Hs as [Hc _].
    unfold JS.is_digit in Hc. apply andb_true_iff in Hc as [H1 H2].
    apply Z.leb_le in H1, H2. lia.
Qed.

Lemma numeric_tail_unsigned (s : string) :
  Validator.numeric_tail s = true ->
  exists q, JS.read_unsigned_decimal s = Some (JS.Fin q, EmptyString).
Proof.
  intros Hs. unfold JS.read_unsigned_decimal.
  assert (Hinf : JS.strip_prefix "Infinity" s = None).
  { destruct s as [|c r]; [reflexivity|].
    pose proof (numeric_tail_head c r Hs) as Hc.
    change (JS.strip_prefix "Infinity" (String c r))
      with (if Ascii.eqb "I" c then JS.strip_prefix "nfinity" r else None).
    destruct (Ascii.eqb_spec "I" c) as [<-|]; [|reflexivity].
    vm_compute in Hc. destruct Hc as [_ Hc]. exfalso. apply Hc. reflexivity. }
  rewrite Hinf.
  destruct (numeric_tail_read s Hs 0 0%nat) as [[v Hv]|(v & m & c & r & Hv & Hc & Hr)];
    rewrite Hv.
  - destruct s as [|c r]; [discriminate|]. simpl. eauto.
  - apply Z.eqb_eq in Hc. rewrite Hc.
    unfold JS.digits1 in Hr. destruct r as [|d t]; [discriminate|].
    destruct (read_digits_all (String d t) 0 0%nat Hr) as [f Hf]. rewrite Hf.
    simpl. destruct m; eauto.
Qed.

(** No white space begins with a character of a numeral. *)
Lemma skip_ws_numeral (c : ascii) (r : string) :
  43 <= JS.code c <= 57 -> JS.skip_ws (String c r) = String c r.
Proof.
  intros Hc.
  assert (H1 : JS.ws1 (JS.code c) = false).
  { destruct (JS.ws1 (JS.code c)) eqn:E; [|reflexivity].
    unfold JS.ws1 in E. bool_to_prop E. lia. }
  assert (H2 : forall b, JS.ws2 (JS.code c) b = false).
  { intros b. destruct (JS.ws2 (JS.code c) b) eqn:E; [|reflexivity].
    unfold JS.ws2 in E. bool_to_prop E. lia. }
  assert (H3 : forall a b, JS.ws3 (JS.code c) a b = false).
  { intros a b. destruct (JS.ws3 (JS.code c) a b) eqn:E; [|reflexivity].
    unfold JS.ws3 in E. bool_to_prop E. lia. }
  cbn [JS.skip_ws]. rewrite H1.
  destruct r as [|b r2]; [reflexivity|]. rewrite H2.
  destruct r2 as [|d r3]; [reflexivity|]. rewrite H3. reflexivity.
Qed.

Lemma read_non_decimal_numeral (c : ascii) (r : string) :
  (JS.is_sign c = true \/ Validator.numeric_tail (String c r) = true) ->
  JS.read_non_decimal (String c r) = None.
Proof.
  intros Hc. unfold JS.read_non_decimal.
  destruct r as [|p r']; [reflexivity|].
  destruct (JS.code c =? 48) eqn:E0; [|reflexivity].
  apply Z.eqb_eq in E0.
  destruct Hc as [Hs|Hn].
  - unfold JS.is_sign in Hs. rewrite E0 in Hs. discriminate.
  - cbn [Validator.numeric_tail] in Hn. rewrite E0 in Hn.
    change (48 =? 46) with false in Hn. cbv iota in Hn.
    apply andb_true_iff in Hn as [_ Hn].
    apply numeric_tail_head in Hn.
    assert (Hx : ((JS.code p =? 120) || (JS.code p =? 88)) = false).
    { apply orb_false_iff; split; apply Z.eqb_neq; lia. }
    assert (Ho : ((JS.code p =? 111) || (JS.code p =? 79)) = false).
    { apply orb_false_iff; split; apply Z.eqb_neq; lia. }
    assert (Hb : ((JS.code p =? 98) || (JS.code p =? 66)) = false).
    { apply orb_false_iff; split; apply Z.eqb_neq; lia. }
    rewrite Hx, Ho, Hb. reflexivity.
Qed.

(** A string the numeric rule accepts converts to a finite number. *)
Lemma isNumeric_finite (s : string) :
  Validator.isNumeric s = true -> exists q, JS.StringToNumber s = JS.Fin q.
Proof.
  unfold Validator.isNumeric. intros Hs.
  destruct s as [|c r]; [discriminate|].
  cbn [JS.strip_sign] in Hs.
  assert (Hc : 43 <= JS.code c <= 57).
  { destruct (JS.is_sign c) eqn:E.
    - unfold JS.is_sign in E. bool_to_prop E. lia.
    - apply numeric_tail_head in Hs. lia. }
  unfold JS.StringToNumber. rewrite (skip_ws_numeral c r Hc).
  rewrite read_non_decimal_numeral
    by (destruct (JS.is_sign c); [left; reflexivity | right; exact Hs]).
  unfold JS.read_decimal.
  destruct (JS.is_sign c) eqn:E.
  - destruct (numeric_tail_unsigned r Hs) as [q Hq].
    unfold JS.is_sign in E. apply orb_true_iff in E as [E|E]; rewrite E.
    + rewrite Hq. simpl. eauto.
    + destruct (JS.code c =? 43); rewrite Hq; simpl; eauto.
  - destruct (numeric_tail_unsigned (String c r) Hs) as [q Hq].
    unfold JS.is_sign in E. apply orb_false_iff in E as [E1 E2].
    rewrite E1, E2, Hq. simpl. eauto.
Qed.

Lemma digits1_numeric_tail (s : string) :
  JS.digits1 s = true -> Validator.numeric_tail s = true.
Proof.
  induction s as [|c r IH]; [discriminate|].
  unfold JS.digits1. cbn [JS.all_digits Validator.numeric_tail].
  intros Hs. apply andb_true_iff in Hs as [Hc Hr]. rewrite Hc.
  assert (Hdot : (JS.code c =? 46) = false).
  { unfold JS.is_digit in Hc. apply andb_true_iff in Hc as [H1 _].
    apply Z.leb_le in H1. apply Z.eqb_neq. lia. }
  rewrite Hdot. destruct r as [|d t]; [reflexivity|]. apply IH. exact Hr.
Qed.

(** *** The text of a number *)

Lemma append_String (c : ascii) (a b : string) :
  String c a +:+ b = String c (a +:+ b).
Proof. reflexivity. Qed.

Lemma head_string_of_uint_digit (u : Decimal.uint) :
  u <> Decimal.Nil ->
  exists c r, NilEmpty.string_of_uint u = String c r /\ JS.is_digit c = true.
Proof. destruct u; simpl; try congruence; eauto. Qed.

Lemma Z_to_string_head (z : Z) :
  exists c r, JS.Z_to_string z = String c r
              /\ (JS.code c = 45 \/ JS.is_digit c = true).
Proof.
  unfold JS.Z_to_string. destruct z as [|p|p]; simpl.
  - eauto.
  - destruct (head_string_of_uint_digit (Pos.to_uint p) (Unsigned.to_uint_nonnil p))
      as (c & r & -> & Hc). eauto.
  - eauto.
Qed.

Lemma all_digits_before_e (a b : string) :
  JS.all_digits (a +:+ String "e" b) = false.
Proof.
  induction a as [|c a IH]; [reflexivity|].
  rewrite append_String. cbn [JS.all_digits]. rewrite IH. apply andb_false_r.
Qed.

Lemma digits1_before_e (a b : string) :
  JS.digits1 (a +:+ String "e" b) = false.
Proof.
  destruct a as [|c a]; [reflexivity|].
  rewrite append_String. unfold JS.digits1. rewrite <- append_String.
  apply all_digits_before_e.
Qed.

(** No text with the letter [e] in it matches the numeric pattern. *)
Lemma numeric_tail_before_e (a b : string) :
  Validator.numeric_tail (a +:+ String "e" b) = false.
Proof.
  induction a as [|c a IH]; [reflexivity|].
  rewrite append_String. cbn [Validator.numeric_tail].
  rewrite digits1_before_e.
  destruct (JS.code c =? 46); [reflexivity|].
  destruct (a +:+ String "e" b) eqn:E.
  - destruct a; discriminate E.
  - rewrite IH. apply andb_false_r.
Qed.

Lemma digit_not_sign (c : ascii) : JS.is_digit c = true -> JS.is_sign c = false.
Proof.
  unfold JS.is_digit, JS.is_sign. intros Hc.
  apply andb_true_iff in Hc as [H1 _]. apply Z.leb_le in H1.
  apply orb_false_iff; split; apply Z.eqb_neq; lia.
Qed.

(** The exponent form: a digit, then more text, and not numeric. *)
Lemma exponential_shape (p : positive) :
  exists c r,
    JS.exponential (JS.Z_to_string (Z.pos p)) = String c r
    /\ JS.is_digit c = true
    /\ r <> EmptyString
    /\ Validator.numeric_tail (String c r) = false.
Proof.
  unfold JS.Z_to_string. cbn [Z.to_int NilEmpty.string_of_int].
  destruct (head_string_of_uint_digit (Pos.to_uint p) (Unsigned.to_uint_nonnil p))
    as (c & r & -> & Hc).
  unfold JS.exponential. rewrite append_String.
  exists c. eexists. split; [reflexivity|]. split; [exact Hc|]. split.
  - destruct (JS.drop_trailing_zeros r); discriminate.
  - rewrite <- append_String. apply (numeric_tail_before_e _ (String "+" _)).
Qed.

Lemma isNumeric_Z_to_string (z : Z) :
  Validator.isNumeric (JS.Z_to_string z) = true.
Proof.
  unfold Validator.isNumeric, JS.Z_to_string.
  destruct z as [|p|p]; cbn [Z.to_int NilEmpty.string_of_int].
  - reflexivity.
  - rewrite head_string_of_uint_not_sign.
    apply digits1_numeric_tail, digits1_string_of_uint, Unsigned.to_uint_nonnil.
  - cbn [JS.strip_sign]. change (JS.is_sign "-") with true. cbv iota.
    apply digits1_numeric_tail, digits1_string_of_uint, Unsigned.to_uint_nonnil.
Qed.

(** The three forms of the text of a number. *)
Lemma Number_toString_cases (z : Z) :
  (JS.overflows z = true
   /\ (JS.Number_toString z = "Infinity" \/ JS.Number_toString z = "-Infinity"))
  \/ (JS.overflows z = false /\ Z.abs (JS.to_double z) < 10 ^ 21
      /\ JS.Number_toString z = JS.Z_to_string (JS.to_double z))
  \/ (JS.overflows z = false /\ 10 ^ 21 <= Z.abs (JS.to_double z)
      /\ exists c r,
           JS.strip_sign (JS.Number_toString z) = String c r
           /\ (JS.Number_toString z = String c r
               \/ JS.Number_toString z = String "-" (String c r))
           /\ JS.is_digit c = true
           /\ r <> EmptyString
           /\ Validator.numeric_tail (String c r) = false).
Proof.
  unfold JS.Number_toString. destruct (JS.overflows z) eqn:Eo.
  - left. split; [reflexivity|]. destruct (z <? 0); auto.
  - right. destruct (Z.abs (JS.to_double z) <? 10 ^ 21) eqn:E.
    + left. apply Z.ltb_lt in E. auto.
    + right. apply Z.ltb_ge in E. split; [reflexivity|]. split; [exact E|].
      assert (H21 : 0 < 10 ^ 21) by reflexivity.
      destruct (Z.abs (JS.to_double z)) as [|p|p] eqn:Ea; try lia.
      destruct (exponential_shape p) as (c & r & -> & Hc & Hr & Hn).
      exists c, r. destruct (z <? 0).
      * change ("-" +:+ String c r) with (String "-" (String c r)).
        repeat split; auto.
      * change (EmptyString +:+ String c r) with (String c r).
        cbn [JS.strip_sign]. rewrite (digit_not_sign c Hc). repeat split; auto.
Qed.

(** The numeric rule on a number: it passes when the literal is below
    10^21 - 65536 in magnitude, where the double is below 10^21, and fails
    from there on, where the text is in exponent form or [Infinity]. *)
Lemma isNumeric_Number (z : Z) :
  Validator.isNumeric (JS.Number_toString z) = (Z.abs z <? 10 ^ 21 - 65536).
Proof.
  destruct (Number_toString_cases z)
    as [[Ho [-> | ->]]|[(Ho & Hd & ->)|(Ho & Hd & c & r & Hs & _ & _ & _ & Hn)]].
  - symmetry. apply Z.ltb_ge. unfold JS.overflows in Ho. apply Z.leb_le in Ho.
    destruct (Z.lt_ge_cases (Z.abs z) (10 ^ 21 - 65536)) as [Hlt|Hge]; [|exact Hge].
    apply to_double_below_1e21 in Hlt.
    assert (H : 10 ^ 21 < 2 ^ 1024) by reflexivity. lia.
  - symmetry. apply Z.ltb_ge. unfold JS.overflows in Ho. apply Z.leb_le in Ho.
    destruct (Z.lt_ge_cases (Z.abs z) (10 ^ 21 - 65536)) as [Hlt|Hge]; [|exact Hge].
    apply to_double_below_1e21 in Hlt.
    assert (H : 10 ^ 21 < 2 ^ 1024) by reflexivity. lia.
  - rewrite isNumeric_Z_to_string. symmetry. apply Z.ltb_lt.
    apply to_double_below_1e21, Hd.
  - unfold Validator.isNumeric. rewrite Hs, Hn. symmetry. apply Z.ltb_ge.
    destruct (Z.lt_ge_cases (Z.abs z) (10 ^ 21 - 65536)) as [Hlt|Hge]; [|exact Hge].
    apply to_double_below_1e21 in Hlt. lia.
Qed.

(** The text of a number begins with a minus sign, a digit or the [I] of
    [Infinity]. *)
Lemma Number_toString_head (z : Z) :
  exists c r, JS.Number_toString z = String c r
              /\ (JS.code c = 45 \/ JS.is_digit c = true \/ JS.code c = 73).
Proof.
  destruct (Number_toString_cases z)
    as [[Ho [-> | ->]]|[(Ho & Hd & ->)|(Ho & Hd & c & r & _ & [-> | ->] & Hc & _)]].
  - exists "I"%char. eexists. split; [reflexivity|]. auto.
  - exists "-"%char. eexists. split; [reflexivity|]. auto.
  - destruct (Z_to_string_head (JS.to_double z)) as (c & r & -> & [Hc|Hc]); eauto 6.
  - eauto 6.
  - exists "-"%char. eexists. split; [reflexivity|]. auto.
Qed.

Lemma isEmpty_Number (z : Z) : Validator.isEmpty (JS.Number_toString z) = false.
Proof. destruct (Number_toString_head z) as (c & r & -> & _). reflexivity. Qed.


(** A number is above zero when its literal is. *)
Lemma gt0_Number (z : Z) : JS.gt0 (JS.Num z) = (0 <? z).
Proof.
  unfold JS.gt0. cbn [JS.ToNumber]. unfold JS.number_of.
  destruct (to_double_sign z) as [Hp Hn].
  destruct (JS.overflows z) eqn:Eo.
  - unfold JS.overflows in Eo. apply Z.leb_le in Eo.
    assert (H : 0 < 2 ^ 1024) by reflexivity.
    destruct (Z.ltb_spec z 0) as [Hz|Hz]; destruct (Z.ltb_spec 0 z) as [Hz'|Hz'];
      try reflexivity; try lia.
    assert (z = 0) by lia. subst z.
    rewrite to_double_small in Eo by reflexivity. lia.
  - assert (H1 : (JS.underflow < 1)%Q) by reflexivity.
    destruct (0 <? z) eqn:E.
    + apply Z.ltb_lt in E. specialize (Hp E). apply negb_true_iff.
      destruct (Qle_bool (inject_Z (JS.to_double z)) JS.underflow) eqn:Eq;
        [|reflexivity].
      apply Qle_bool_iff in Eq. exfalso. apply (Qlt_not_le _ _ H1).
      eapply Qle_trans; [|exact Eq].
      change 1%Q with (inject_Z 1). rewrite <- Zle_Qle. lia.
    + apply Z.ltb_ge in E. specialize (Hn E). apply negb_false_iff.
      apply Qle_bool_iff. apply Qle_trans with (inject_Z 0).
      * rewrite <- Zle_Qle. exact Hn.
      * apply Qlt_le_weak, underflow_positive.
Qed.

Lemma numeric_price (v : JS.value) :
  Validator.isNumeric (toString v) = true -> exists q, to_price v = Some q.
Proof.
  unfold to_price. destruct v as [| |b|z|s]; cbn [toString JS.ToNumber].
  - discriminate.
  - discriminate.
  - destruct b; discriminate.
  - rewrite isNumeric_Number. intros Hz. apply Z.ltb_lt in Hz.
    apply to_double_below_1e21, below_1e21_finite in Hz.
    unfold JS.number_of. rewrite Hz. eauto.
  - intros Hs. destruct (isNumeric_finite s Hs) as [q ->]. eauto.
Qed.

(** A price sent as a JSON number: every positive integer below
    10^21 - 65536 passes the numeric rule and the comparison with zero. *)
Lemma integer_price_passes (z : Z) :
  0 < z < 10 ^ 21 - 65536 ->
  Validator.isNumeric (toString (JS.Num z)) = true /\ JS.gt0 (JS.Num z) = true.
Proof.
  intros [Hpos Hlt]. cbn [toString]. rewrite isNumeric_Number, gt0_Number.
  split; apply Z.ltb_lt; lia.
Qed.

(** A string that begins with a lower-case letter is no number: it fails
    the numeric rule and converts to NaN, so it is not above zero. *)
Lemma word_not_a_number (c : ascii) (r : string) :
  97 <= JS.code c <= 122 ->
  Validator.isNumeric (String c r) = false
  /\ JS.StringToNumber (String c r) = JS.NaN
  /\ JS.gt0 (JS.Str (String c r)) = false.
Proof.
  intros Hc.
  assert (Hsign : JS.is_sign c = false).
  { unfold JS.is_sign. apply orb_false_iff; split; apply Z.eqb_neq; lia. }
  assert (Hdigit : JS.is_digit c = false).
  { unfold JS.is_digit. apply andb_false_iff. right. apply Z.leb_gt. lia. }
  assert (Hdot : (JS.code c =? 46) = false) by (apply Z.eqb_neq; lia).
  assert (Hnan : JS.StringToNumber (String c r) = JS.NaN).
  { assert (H1 : JS.ws1 (JS.code c) = false).
    { destruct (JS.ws1 (JS.code c)) eqn:E; [|reflexivity].
      unfold JS.ws1 in E. bool_to_prop E. lia. }
    assert (H2 : forall b, JS.ws2 (JS.code c) b = false).
    { intros b. destruct (JS.ws2 (JS.code c) b) eqn:E; [|reflexivity].
      unfold JS.ws2 in E. bool_to_prop E. lia. }
    assert (H3 : forall a b, JS.ws3 (JS.code c) a b = false).
    { intros a b. destruct (JS.ws3 (JS.code c) a b) eqn:E; [|reflexivity].
      unfold JS.ws3 in E. bool_to_prop E. lia. }
    assert (Hskip : JS.skip_ws (String c r) = String c r).
    { cbn [JS.skip_ws]. rewrite H1.
      destruct r as [|b r2]; [reflexivity|]. rewrite H2.
      destruct r2 as [|d r3]; [reflexivity|]. rewrite H3. reflexivity. }
    assert (Hnd : JS.read_non_decimal (String c r) = None).
    { unfold JS.read_non_decimal. destruct r; [reflexivity|].
      replace (JS.code c =? 48) with false by (symmetry; apply Z.eqb_neq; lia).
      reflexivity. }
    assert (Hinf : JS.strip_prefix "Infinity" (String c r) = None).
    { change (JS.strip_prefix "Infinity" (String c r))
        with (if Ascii.eqb "I" c then JS.strip_prefix "nfinity" r else None).
      destruct (Ascii.eqb_spec "I" c) as [<-|]; [|reflexivity].
      vm_compute in Hc. destruct Hc as [Hc _]. exfalso. apply Hc. reflexivity. }
    assert (Hno : JS.digit_of 10 c = None).
    { unfold JS.digit_of.
      replace ((48 <=? JS.code c) && (JS.code c <=? 57)) with false
        by (symmetry; apply andb_false_iff; right; apply Z.leb_gt; lia).
      replace ((65 <=? JS.code c) && (JS.code c <=? 70)) with false
        by (symmetry; apply andb_false_iff; right; apply Z.leb_gt; lia).
      destruct ((97 <=? JS.code c) && (JS.code c <=? 102)) eqn:E.
      - replace (JS.code c - 87 <? 10) with false
          by (symmetry; apply Z.ltb_ge; lia).
        reflexivity.
      - reflexivity. }
    unfold JS.StringToNumber. rewrite Hskip, Hnd.
    unfold JS.read_decimal.
    replace (JS.code c =? 43) with false by (symmetry; apply Z.eqb_neq; lia).
    replace (JS.code c =? 45) with false by (symmetry; apply Z.eqb_neq; lia).
    unfold JS.read_unsigned_decimal. rewrite Hinf.
    cbn [JS.read_digits]. rewrite Hno, Hdot. reflexivity. }
  split.
  - unfold Validator.isNumeric. cbn [JS.strip_sign]. rewrite Hsign.
    cbn [Validator.numeric_tail]. rewrite Hdot, Hdigit. reflexivity.
  - split; [exact Hnan|]. unfold JS.gt0. cbn [JS.ToNumber]. rewrite Hnan. reflexivity.
Qed.
End Prices.

(** ** The application: each route over the product handlers *)
Section Application.
Import ExpressValidator ProductHandlers.

Lemma id_errors_parse (i : string) :
  id_errors i = match parse_int i with
                | Some _ => []
                | None => [id_error i]
                end.
Proof. unfold id_errors, parse_int. destruct (Validator.isInt i); reflexivity. Qed.

Lemma pk_incoming (m : Method) (i : string) (b : gmap string JS.value) :
  pk (incoming {| method := m; params_id := Some i; req_body := b |}) = parse_int i.
Proof. reflexivity. Qed.

Lemma api_get (i : string) (b : gmap string JS.value) (db : Store) :
  api (GET_ i b) db
  = match parse_int i with
    | None => (db, bad_request [id_error i])
    | Some k =>
        match findByPk db k with
        | None => (db, not_found)
        | Some p => (db, {| status := 200; json := data_product p |})
        end
    end.
Proof.
  unfold api. rewrite router_get, id_errors_parse.
  destruct (parse_int i) as [k|] eqn:E; [|reflexivity].
  enter_handler. unfold getProductById, GET_.
  rewrite pk_incoming, E. reflexivity.
Qed.

Lemma api_patch (i : string) (b : gmap string JS.value) (db : Store) :
  api (PATCH_ i b) db
  = match parse_int i with
    | None => (db, bad_request [id_error i])
    | Some k =>
        match findByPk db k with
        | None => (db, not_found)
        | Some p =>
            ({| rows := map (fun r => if has_id (Product.id p) r then toggled p else r)
                            (rows db);
                next_id := next_id db |},
             {| status := 200; json := data_product (toggled p) |})
        end
    end.
Proof.
  unfold api. rewrite router_patch, id_errors_parse.
  destruct (parse_int i) as [k|] eqn:E; [|reflexivity].
  enter_handler. unfold updateAvailability, PATCH_.
  rewrite pk_incoming, E. reflexivity.
Qed.

Lemma api_delete (i : string) (b : gmap string JS.value) (db : Store) :
  api (DELETE_ i b) db
  = match parse_int i with
    | None => (db, bad_request [id_error i])
    | Some k =>
        match findByPk db k with
        | None => (db, not_found)
        | Some p =>
            ({| rows := filter (fun r => has_id (Product.id p) r = false) (rows db);
                next_id := next_id db |},
             {| status := 200; json := data_text "Producto Eliminado" |})
        end
    end.
Proof.
  unfold api. rewrite router_delete, id_errors_parse.
  destruct (parse_int i) as [k|] eqn:E; [|reflexivity].
  enter_handler. unfold deleteProduct, DELETE_.
  rewrite pk_incoming, E. reflexivity.
Qed.

Lemma api_post (b : gmap string JS.value) (db : Store) :
  api (POST_ b) db
  = match name_errors (field_of b "name") ++ price_errors (field_of b "price") with
    | [] =>
        match to_price (field_of b "price") with
        | Some q =>
            let p := {| Product.id := next_id db;
                        Product.name := toString (field_of b "name");
                        Product.price := q;
                        Product.availability := true |} in
            ({| rows := rows db ++ [p]; next_id := next_id db + 1 |},
             {| status := 201; json := data_product p |})
        | None => (db, server_error)
        end
    | es => (db, bad_request es)
    end.
Proof. unfold api. rewrite router_post. reflexivity. Qed.

Lemma api_put (i : string) (b : gmap string JS.value) (db : Store) :
  api (PUT_ i b) db
  = match id_errors i
          ++ name_errors (field_of b "name")
          ++ price_errors (field_of b "price")
          ++ availability_errors (field_of b "availability") with
    | [] =>
        match parse_int i ≫= findByPk db with
        | None => (db, not_found)
        | Some p =>
            match to_price (field_of b "price"),
                  to_boolean (field_of b "availability") with
            | Some q, Some a =>
                let p' := {| Product.id := Product.id p;
                             Product.name := toString (field_of b "name");
                             Product.price := q;
                             Product.availability := a |} in
                ({| rows := map (fun r => if has_id (Product.id p) r then p' else r)
                                (rows db);
                    next_id := next_id db |},
                 {| status := 200; json := data_product p' |})
            | _, _ => (db, server_error)
            end
        end
    | es => (db, bad_request es)
    end.
Proof. unfold api. rewrite router_put. reflexivity. Qed.

End Application.

(** ** The table: look-up, and what one request does to it *)
Section Table.
Import ExpressValidator ProductHandlers.

Lemma has_id_true (k : Z) (p : Product.t) : has_id k p = true <-> Product.id p = k.
Proof. unfold has_id. apply Z.eqb_eq. Qed.

Lemma has_id_false (k : Z) (p : Product.t) : has_id k p = false <-> Product.id p <> k.
Proof. unfold has_id. apply Z.eqb_neq. Qed.

Lemma findByPk_Some (db : Store) (k : Z) (p : Product.t) :
  findByPk db k = Some p -> p ∈ rows db /\ Product.id p = k.
Proof.
  unfold findByPk. intros Hf. apply find_some in Hf as [Hin Hid].
  split; [apply list_elem_of_In, Hin | apply has_id_true, Hid].
Qed.

Lemma findByPk_None (db : Store) (k : Z) :
  findByPk db k = None <-> k ∉ ids db.
Proof.
  unfold findByPk, ids. induction (rows db) as [|r l IH]; simpl.
  - split; [intros _; apply not_elem_of_nil | reflexivity].
  - rewrite not_elem_of_cons. destruct (has_id k r) eqn:E.
    + apply has_id_true in E. split; [discriminate | intros [Hne _]; congruence].
    + apply has_id_false in E. rewrite IH. split; [intros Hn; split; congruence | tauto].
Qed.

Lemma findByPk_present (db : Store) (k : Z) :
  k ∈ ids db -> exists p, findByPk db k = Some p.
Proof.
  intros Hin. destruct (findByPk db k) eqn:E; [eauto|].
  apply findByPk_None in E. contradiction.
Qed.

(** Overwriting the rows of id [k] with a row of id [k] keeps every id. *)
Lemma ids_overwrite (k : Z) (p' : Product.t) (l : list Product.t) :
  Product.id p' = k ->
  map Product.id (map (fun r => if has_id k r then p' else r) l) = map Product.id l.
Proof.
  intros Hk. induction l as [|r l IH]; simpl; [reflexivity|].
  rewrite IH. f_equal. destruct (has_id k r) eqn:E; [|reflexivity].
  apply has_id_true in E. congruence.
Qed.

Lemma ids_remove (k : Z) (l : list Product.t) :
  map Product.id (filter (fun r => has_id k r = false) l)
  = filter (fun x => x <> k) (map Product.id l).
Proof.
  induction l as [|r l IH]; simpl; [reflexivity|].
  rewrite !filter_cons, <- IH.
  destruct (has_id k r) eqn:E.
  - apply has_id_true in E.
    destruct (decide (true = false)); [discriminate|].
    destruct (decide (Product.id r <> k)); [contradiction | reflexivity].
  - apply has_id_false in E.
    destruct (decide (false = false)); [|contradiction].
    destruct (decide (Product.id r <> k)); [reflexivity | contradiction].
Qed.

(** With ids that occur once, the row of an id is the row found for it. *)
Lemma unique_row (l : list Product.t) (p r : Product.t) :
  NoDup (map Product.id l) -> p ∈ l -> r ∈ l -> Product.id r = Product.id p -> r = p.
Proof.
  induction l as [|x l IH]; simpl; intros Hnd Hp Hr Hid.
  - apply elem_of_nil in Hp. contradiction.
  - apply NoDup_cons in Hnd as [Hx Hnd].
    assert (Hmem : forall y, y ∈ l -> Product.id y ∈ map Product.id l).
    { intros y Hy. apply list_elem_of_In, in_map, list_elem_of_In, Hy. }
    apply elem_of_cons in Hp as [->|Hp]; apply elem_of_cons in Hr as [->|Hr].
    + reflexivity.
    + exfalso. apply Hx. rewrite <- Hid. auto.
    + exfalso. apply Hx. rewrite Hid. auto.
    + auto.
Qed.

Lemma price_errors_nil (v : JS.value) :
  price_errors v = [] ->
  Validator.isNumeric (toString v) = true /\ JS.gt0 v = true.
Proof.
  unfold price_errors.
  destruct (Validator.isNumeric _), (Validator.isEmpty _), (JS.gt0 v);
    simpl; intros; try discriminate; auto.
Qed.

(** Every request is one of the transitions of the table. *)
Lemma step_transition (db : Store) (req : Request) : transition db (step db req).
Proof.
  unfold step. destruct req as [m [i|] b]; destruct m;
    try exact (t_none db).
  - change (transition db (fst (api (GET_ i b) db))). rewrite api_get.
    destruct (parse_int i); [destruct (findByPk db _)|]; constructor.
  - change (transition db (fst (api (PUT_ i b) db))). rewrite api_put.
    destruct (id_errors i ++ _) eqn:E; [|constructor].
    apply app_eq_nil in E as [_ E]. apply app_eq_nil in E as [_ E].
    apply app_eq_nil in E as [E _]. apply price_errors_nil in E as [_ Hpos].
    destruct (parse_int i ≫= findByPk db) as [p|]; [|constructor].
    destruct (to_price _) as [q|] eqn:Hq; [|constructor].
    destruct (to_boolean _) as [a|]; [|constructor].
    cbn [fst]. apply t_replace. eapply gt0_positive; eassumption.
  - change (transition db (fst (api (PATCH_ i b) db))). rewrite api_patch.
    destruct (parse_int i); [|constructor].
    destruct (findByPk db _) as [p|] eqn:Hp; [|constructor].
    cbn [fst]. apply t_toggle. apply findByPk_Some in Hp as [Hp _].
    apply list_elem_of_In, Hp.
  - change (transition db (fst (api (DELETE_ i b) db))). rewrite api_delete.
    destruct (parse_int i); [|constructor].
    destruct (findByPk db _) as [p|]; constructor.
  - change (transition db (fst (api (POST_ b) db))). rewrite api_post.
    destruct (name_errors _ ++ _) eqn:E; [|constructor].
    apply app_eq_nil in E as [_ E]. apply price_errors_nil in E as [_ Hpos].
    destruct (to_price _) as [q|] eqn:Hq; [|constructor].
    cbn [fst]. apply t_create. eapply gt0_positive; eassumption.
Qed.

Lemma transition_ids (db db' : Store) :
  transition db db' ->
  (ids db' = ids db /\ next_id db' = next_id db)
  \/ ((exists k, ids db' = filter (fun x => x <> k) (ids db)) /\ next_id db' = next_id db)
  \/ (ids db' = ids db ++ [next_id db] /\ next_id db' = next_id db + 1).
Proof.
  unfold ids. intros [ |n q Hq|k n q a Hq|p Hp|k]; simpl.
  - auto.
  - right; right. rewrite map_app. auto.
  - left. rewrite ids_overwrite; auto.
  - left. rewrite ids_overwrite; auto.
  - right; left. rewrite ids_remove. eauto.
Qed.

Lemma transition_prices (db db' : Store) :
  Forall positive_price (rows db) -> transition db db' ->
  Forall positive_price (rows db').
Proof.
  intros Hall [ |n q Hq|k n q a Hq|p Hp|k]; simpl.
  - exact Hall.
  - apply Forall_app; split; [exact Hall|]. repeat constructor. exact Hq.
  - apply Forall_map. eapply Forall_impl; [exact Hall|].
    intros r Hr. simpl. destruct (has_id k r); [exact Hq | exact Hr].
  - apply Forall_map. eapply Forall_impl; [exact Hall|].
    intros r Hr. simpl. destruct (has_id (Product.id p) r); [|exact Hr].
    rewrite Forall_forall in Hall. apply (Hall p). apply list_elem_of_In, Hp.
  - apply Forall_forall. intros r Hr. apply list_elem_of_filter in Hr as [_ Hr].
    rewrite Forall_forall in Hall. auto.
Qed.

Lemma transition_consistent (db db' : Store) :
  consistent db -> transition db db' -> consistent db'.
Proof.
  intros (Hp & H0 & Hb & Hn) Ht. split; [eapply transition_prices; eassumption|].
  destruct (transition_ids db db' Ht) as [[-> ->]|[[[k ->] ->]|[-> ->]]].
  - auto.
  - split; [exact H0|]. split.
    + apply Forall_forall. intros x Hx. apply list_elem_of_filter in Hx as [_ Hx].
      rewrite Forall_forall in Hb. auto.
    + apply NoDup_filter, Hn.
  - rewrite Forall_forall in Hb. split; [lia|]. split.
    + apply Forall_forall. intros x Hx. apply elem_of_app in Hx as [Hx|Hx].
      * specialize (Hb x Hx). lia.
      * apply list_elem_of_singleton in Hx as ->. lia.
    + apply NoDup_app. split; [exact Hn|]. split; [|apply NoDup_singleton].
      intros x Hx Hx'. apply list_elem_of_singleton in Hx' as ->.
      specialize (Hb _ Hx). lia.
Qed.

Lemma empty_store_consistent : consistent empty_store.
Proof.
  unfold consistent, empty_store, ids; simpl.
  repeat split; try constructor.
Qed.

Lemma serve_consistent (reqs : list Request) (db : Store) :
  consistent db -> consistent (serve db reqs).
Proof.
  revert db. induction reqs as [|r reqs IH]; intros db Hc; simpl; [exact Hc|].
  apply IH. eapply transition_consistent; [exact Hc | apply step_transition].
Qed.

Lemma reachable_consistent (db : Store) : reachable db -> consistent db.
Proof. intros [reqs ->]. apply serve_consistent, empty_store_consistent. Qed.

Lemma reachable_step (db : Store) (req : Request) :
  reachable db -> reachable (step db req).
Proof.
  intros [reqs ->]. exists (reqs ++ [req]). unfold serve. rewrite foldl_snoc.
  reflexivity.
Qed.

Lemma reachable_serve (db : Store) (reqs : list Request) :
  reachable db -> reachable (serve db reqs).
Proof.
  intros [reqs0 ->]. exists (reqs0 ++ reqs). unfold serve. rewrite foldl_app.
  reflexivity.
Qed.

(** An id the sequence has passed and that is not in the table does not
    come back. *)
Lemma absent_after_transition (db db' : Store) (k : Z) :
  transition db db' -> k < next_id db -> k ∉ ids db ->
  (k ∉ ids db') /\ k < next_id db'.
Proof.
  intros Ht Hk Hn.
  destruct (transition_ids db db' Ht) as [[-> ->]|[[[j ->] ->]|[-> ->]]].
  - auto.
  - split; [|exact Hk]. intros Hx. apply list_elem_of_filter in Hx as [_ Hx]. auto.
  - split; [|lia]. intros Hx. apply elem_of_app in Hx as [Hx|Hx]; [auto|].
    apply list_elem_of_singleton in Hx. lia.
Qed.

Lemma absent_forever (reqs : list Request) (db : Store) (k : Z) :
  k < next_id db -> k ∉ ids db ->
  (k ∉ ids (serve db reqs)) /\ k < next_id (serve db reqs).
Proof.
  revert db. induction reqs as [|r reqs IH]; intros db Hk Hn; simpl; [auto|].
  destruct (absent_after_transition db (step db r) k (step_transition db r) Hk Hn).
  apply IH; assumption.
Qed.

Lemma next_id_monotone (reqs : list Request) (db : Store) :
  next_id db <= next_id (serve db reqs).
Proof.
  revert db. induction reqs as [|r reqs IH]; intros db; simpl; [lia|].
  etransitivity; [|apply IH].
  destruct (transition_ids db (step db r) (step_transition db r))
    as [[_ ->]|[[_ ->]|[_ ->]]]; lia.
Qed.

End Table.

(** ** Validation failures *)
Section ValidationFailures.
Import ExpressValidator ProductHandlers.

Lemma product_body_fields (n p : JS.value) :
  field_of (product_body n p) "name" = n /\ field_of (product_body n p) "price" = p.
Proof. split; reflexivity. Qed.

Lemma full_body_fields (n p a : JS.value) :
  field_of (full_body n p a) "name" = n
  /\ field_of (full_body n p a) "price" = p
  /\ field_of (full_body n p a) "availability" = a.
Proof. repeat split; reflexivity. Qed.

(** C6: a create request with an empty body is answered 400 with exactly
    four validation errors, in the order the rules are declared (name empty,
    price not numeric, price empty, price not positive), and the create
    handler does not run: the answer is the same whatever the handlers are,
    and the table is left as it was. *)
Theorem C6_create_empty_body (H : Handlers) (db : Store) :
  router H (POST_ ∅) db
  = (db,
     {| status := 400;
        json := errors
          [ body_error "El nombre del producto no puede ir vacio" "name" JS.Undefined;
            body_error "Valor no válido" "price" JS.Undefined;
            body_error "El precio del producto no puede ir vacio" "price" JS.Undefined;
            body_error "Precio no válido" "price" JS.Undefined ] |}).
Proof. rewrite router_post. reflexivity. Qed.

(** C8: a replace request with an integer id and an empty body is answered
    400 with exactly five validation errors (one for the name, three for the
    price, one for the availability), and the replace handler does not run:
    the answer is the same whatever the handlers are, and the table is left
    as it was. *)
Theorem C8_replace_empty_body (H : Handlers) (i : string) (db : Store) :
  Validator.isInt i = true ->
  router H (PUT_ i ∅) db
  = (db,
     {| status := 400;
        json := errors
          [ body_error "El nombre del producto no puede ir vacio" "name" JS.Undefined;
            body_error "Valor no válido" "price" JS.Undefined;
            body_error "El precio del producto no puede ir vacio" "price" JS.Undefined;
            body_error "Precio no válido" "price" JS.Undefined;
            body_error "Valor para disponibilidad no válido" "availability"
              JS.Undefined ] |}).
Proof. intros Hi. rewrite router_put. unfold id_errors. rewrite Hi. reflexivity. Qed.

Lemma C8_replace_empty_body_witness :
  Validator.isInt "1" = true
  /\ router handlers (PUT_ "1" ∅) empty_store
     = (empty_store,
        {| status := 400;
           json := errors
             [ body_error "El nombre del producto no puede ir vacio" "name" JS.Undefined;
               body_error "Valor no válido" "price" JS.Undefined;
               body_error "El precio del producto no puede ir vacio" "price" JS.Undefined;
               body_error "Precio no válido" "price" JS.Undefined;
               body_error "Valor para disponibilidad no válido" "availability"
                 JS.Undefined ] |}).
Proof.
  split; [reflexivity|].
  apply (C8_replace_empty_body handlers "1" empty_store). reflexivity.
Defined.

(** C2 (as amended): a request to GET, PATCH or DELETE [/:id] whose id is
    not an integer is answered 400 with exactly one error, the id-invalid
    message; so is a PUT whose body passes validation.  A PUT in general is
    answered 400 with the id-invalid error first, followed by the errors of
    its body.  In every case the handler does not run (the answer is the
    same whatever the handlers are), so the table is not accessed and the
    not-found check is not reached. *)
Theorem C2_invalid_id_rejected (H : Handlers) (i : string)
        (b : gmap string JS.value) (db : Store) :
  Validator.isInt i = false ->
  let id_invalid :=
    {| msg := "ID no válido"; path := "id"; location := in_params;
       value := JS.Str i |} in
  let answer := (db, {| status := 400; json := errors [id_invalid] |}) in
  router H (GET_ i b) db = answer
  /\ router H (PATCH_ i b) db = answer
  /\ router H (DELETE_ i b) db = answer
  /\ (valid_put_body b -> router H (PUT_ i b) db = answer)
  /\ router H (PUT_ i b) db
     = (db, {| status := 400;
               json := errors
                 (id_invalid
                  :: name_errors (field_of b "name")
                  ++ price_errors (field_of b "price")
                  ++ availability_errors (field_of b "availability")) |}).
Proof.
  intros Hi id_invalid answer.
  rewrite router_get, router_patch, router_delete, router_put.
  unfold id_errors. rewrite Hi. repeat split; try reflexivity.
  intros (-> & -> & ->). reflexivity.
Qed.

Lemma C2_invalid_id_rejected_witness :
  Validator.isInt "abc" = false
  /\ router handlers (GET_ "abc" ∅) empty_store
     = (empty_store, {| status := 400; json := errors [id_error "abc"] |}).
Proof.
  assert (Hi : Validator.isInt "abc" = false) by reflexivity.
  split; [exact Hi|].
  pose proof (C2_invalid_id_rejected handlers "abc" ∅ empty_store Hi) as HC.
  cbv zeta in HC. destruct HC as [HC _]. exact HC.
Defined.

(** C2 as stated fails for PUT: with the id [abc] and an empty body the
    answer carries six errors, not one. *)
Lemma C2_counterexample :
  Validator.isInt "abc" = false
  /\ ~ (exists e, api (PUT_ "abc" ∅) empty_store
                  = (empty_store, {| status := 400; json := errors [e] |})).
Proof.
  split; [reflexivity|]. intros [e He].
  unfold api in He. rewrite router_put in He. vm_compute in He. discriminate He.
Qed.

(** C7 (as amended): a create request with a non-empty name and a string
    price that is not empty, fails the numeric rule and is not above zero
    under JavaScript's comparison (as [hola], which converts to NaN) is
    answered with exactly two validation errors, both on the price: the
    numeric-type error and the positivity error, in that order.  The rules
    are evaluated independently; the handler does not run.  (By
    [word_not_a_number] every string that begins with a lower-case letter
    is such a price.) *)
Theorem C7_non_numeric_price (H : Handlers) (b : gmap string JS.value)
        (s : string) (db : Store) :
  Validator.isEmpty (toString (field_of b "name")) = false ->
  field_of b "price" = JS.Str s ->
  s <> EmptyString ->
  Validator.isNumeric s = false ->
  JS.gt0 (JS.Str s) = false ->
  router H (POST_ b) db
  = (db,
     {| status := 400;
        json := errors
          [ body_error "Valor no válido" "price" (JS.Str s);
            body_error "Precio no válido" "price" (JS.Str s) ] |}).
Proof.
  intros Hn Hp Hs Hnum Hpos. rewrite router_post, Hp.
  unfold name_errors, price_errors. rewrite Hn, Hpos. cbn [toString].
  rewrite Hnum. destruct s; [congruence | reflexivity].
Qed.

Lemma C7_non_numeric_price_witness :
  Validator.isEmpty
    (toString (field_of (product_body (JS.Str "Monitor Curvo") (JS.Str "hola")) "name"))
  = false
  /\ field_of (product_body (JS.Str "Monitor Curvo") (JS.Str "hola")) "price"
     = JS.Str "hola"
  /\ "hola" <> EmptyString
  /\ Validator.isNumeric "hola" = false
  /\ JS.gt0 (JS.Str "hola") = false
  /\ router handlers
       (POST_ (product_body (JS.Str "Monitor Curvo") (JS.Str "hola"))) empty_store
     = (empty_store,
        {| status := 400;
           json := errors
             [ body_error "Valor no válido" "price" (JS.Str "hola");
               body_error "Precio no válido" "price" (JS.Str "hola") ] |}).
Proof.
  split; [reflexivity|]. split; [reflexivity|]. split; [discriminate|].
  split; [reflexivity|]. split; [reflexivity|].
  apply (C7_non_numeric_price handlers
           (product_body (JS.Str "Monitor Curvo") (JS.Str "hola")) "hola" empty_store);
    try reflexivity; discriminate.
Defined.

(** C7 as stated fails: the empty string is a string price that is not
    numeric and draws three errors, and [1e3] is one that draws a single
    error, since JavaScript compares it as 1000. *)
Lemma C7_counterexample :
  (Validator.isNumeric EmptyString = false
   /\ api (POST_ (product_body (JS.Str "Monitor Curvo") (JS.Str EmptyString)))
          empty_store
      = (empty_store,
         {| status := 400;
            json := errors
              [ body_error "Valor no válido" "price" (JS.Str EmptyString);
                body_error "El precio del producto no puede ir vacio" "price"
                  (JS.Str EmptyString);
                body_error "Precio no válido" "price" (JS.Str EmptyString) ] |}))
  /\ (Validator.isNumeric "1e3" = false
      /\ api (POST_ (product_body (JS.Str "Monitor Curvo") (JS.Str "1e3")))
             empty_store
         = (empty_store,
            {| status := 400;
               json := errors
                 [ body_error "Valor no válido" "price" (JS.Str "1e3") ] |})).
Proof.
  repeat split; unfold api; rewrite router_post; vm_compute; reflexivity.
Qed.

End ValidationFailures.

(** ** Requests on one product *)
Section OneProduct.
Import ExpressValidator ProductHandlers.

Lemma valid_put_body_dec (b : gmap string JS.value) :
  valid_put_body b
  \/ exists e es,
       name_errors (field_of b "name")
       ++ price_errors (field_of b "price")
       ++ availability_errors (field_of b "availability") = e :: es.
Proof.
  unfold valid_put_body.
  destruct (name_errors _) as [|e1 l1]; [|right; simpl; eauto].
  destruct (price_errors _) as [|e2 l2]; [|right; simpl; eauto].
  destruct (availability_errors _) as [|e3 l3]; [|right; simpl; eauto].
  left. auto.
Qed.

(** An id that is not in the table: every route that validates reaches the
    look-up and answers not found; a PUT is validated first. *)
Lemma absent_id_answers (db : Store) (i : string) (k : Z)
      (b : gmap string JS.value) :
  parse_int i = Some k ->
  k ∉ ids db ->
  api (GET_ i b) db = (db, not_found)
  /\ api (PATCH_ i b) db = (db, not_found)
  /\ api (DELETE_ i b) db = (db, not_found)
  /\ (valid_put_body b -> api (PUT_ i b) db = (db, not_found))
  /\ (~ valid_put_body b ->
      exists e es, api (PUT_ i b) db = (db, bad_request (e :: es))).
Proof.
  intros Hi Hk. apply findByPk_None in Hk.
  rewrite api_get, api_patch, api_delete, api_put, Hi, Hk.
  rewrite id_errors_parse, Hi. cbn [app].
  repeat split; try reflexivity.
  - intros (-> & -> & ->). cbn. rewrite Hk. reflexivity.
  - intros Hnot. destruct (valid_put_body_dec b) as [Hv|(e & es & ->)];
      [contradiction | eauto].
Qed.

Lemma valid_full_body :
  valid_put_body (full_body (JS.Str "Monitor Curvo") (JS.Num 300) (JS.Bool true)).
Proof. repeat split; vm_compute; reflexivity. Qed.

(** C3: a GET, PATCH or DELETE on an integer id that is not in the table,
    and a PUT on it with a body that passes validation, is answered 404 with
    the error [Producto no encontrado], and the table is unchanged.  The
    check comes after validation: the same PUT with a body that does not
    pass is answered 400 with the errors of the body. *)
Theorem C3_absent_id_not_found (db : Store) (i : string) (k : Z)
        (b valid : gmap string JS.value) :
  parse_int i = Some k ->
  k ∉ ids db ->
  valid_put_body valid ->
  let answer := (db, {| status := 404; json := error "Producto no encontrado" |}) in
  api (GET_ i b) db = answer
  /\ api (PATCH_ i b) db = answer
  /\ api (DELETE_ i b) db = answer
  /\ api (PUT_ i valid) db = answer
  /\ (~ valid_put_body b ->
      exists e es,
        api (PUT_ i b) db = (db, {| status := 400; json := errors (e :: es) |})).
Proof.
  intros Hi Hk Hv answer.
  destruct (absent_id_answers db i k b Hi Hk) as (Hg & Hp & Hd & _ & Hb).
  destruct (absent_id_answers db i k valid Hi Hk) as (_ & _ & _ & Hu & _).
  auto 10.
Qed.

Lemma C3_absent_id_not_found_witness :
  parse_int "2000" = Some 2000
  /\ (2000 ∉ ids one_mouse)
  /\ valid_put_body (full_body (JS.Str "Monitor Curvo") (JS.Num 300) (JS.Bool true))
  /\ api (GET_ "2000" ∅) one_mouse
     = (one_mouse, {| status := 404; json := error "Producto no encontrado" |}).
Proof.
  assert (Hi : parse_int "2000" = Some 2000) by reflexivity.
  assert (Hk : 2000 ∉ ids one_mouse).
  { intros Hin. apply list_elem_of_In in Hin. vm_compute in Hin.
    destruct Hin as [Hin|[]]. discriminate Hin. }
  split; [exact Hi|]. split; [exact Hk|]. split; [exact valid_full_body|].
  pose proof (C3_absent_id_not_found one_mouse "2000" 2000 ∅ _ Hi Hk valid_full_body)
    as HC.
  cbv zeta in HC. destruct HC as [HC _]. exact HC.
Defined.

Lemma find_overwritten (j : Z) (f : Product.t -> Product.t) (l : list Product.t) :
  (forall r, has_id j (f r) = has_id j r) ->
  find (has_id j) (map f l) = option_map f (find (has_id j) l).
Proof.
  intros Hf. induction l as [|r l IH]; simpl; [reflexivity|].
  rewrite Hf. destruct (has_id j r); [reflexivity | exact IH].
Qed.

Lemma toggled_involutive (p : Product.t) : toggled (toggled p) = p.
Proof. destruct p as [i n q a]. unfold toggled; simpl. rewrite negb_involutive. reflexivity. Qed.

Lemma has_id_toggle (j : Z) (p r : Product.t) :
  has_id j (if has_id (Product.id p) r then toggled p else r) = has_id j r.
Proof.
  destruct (has_id (Product.id p) r) eqn:E; [|reflexivity].
  apply has_id_true in E. unfold has_id. simpl. rewrite E. reflexivity.
Qed.

(** C4: a PATCH on an existing product, whatever its body, is answered 200
    with the product whose availability is the complement of the stored one
    and whose id, name and price are the stored ones; the table then holds
    that record under the id, and every other product as before.  A second
    PATCH on it brings the table back to what it was. *)
Theorem C4_toggle_availability (db : Store) (i : string) (k : Z) (p : Product.t)
        (b b' : gmap string JS.value) :
  reachable db ->
  parse_int i = Some k ->
  findByPk db k = Some p ->
  let p' := {| Product.id := Product.id p;
               Product.name := Product.name p;
               Product.price := Product.price p;
               Product.availability := negb (Product.availability p) |} in
  let db' := step db (PATCH_ i b) in
  api (PATCH_ i b) db = (db', {| status := 200; json := data_product p' |})
  /\ findByPk db' k = Some p'
  /\ (forall j, j <> k -> findByPk db' j = findByPk db j)
  /\ ids db' = ids db
  /\ next_id db' = next_id db
  /\ api (PATCH_ i b') db' = (db, {| status := 200; json := data_product p |}).
Proof.
  intros Hr Hi Hp p' db'.
  destruct (reachable_consistent db Hr) as (_ & _ & _ & Hnd).
  destruct (findByPk_Some db k p Hp) as [Hin Hid].
  assert (Hdb' : db' = {| rows := map (fun r => if has_id (Product.id p) r
                                                 then toggled p else r) (rows db);
                          next_id := next_id db |}).
  { unfold db', step. rewrite api_patch, Hi, Hp. reflexivity. }
  assert (Hfind : forall j, findByPk db' j
                            = option_map (fun r => if has_id (Product.id p) r
                                                   then toggled p else r)
                                         (findByPk db j)).
  { intros j. rewrite Hdb'. unfold findByPk. cbn [rows].
    apply find_overwritten. intros r. apply has_id_toggle. }
  assert (Hp' : findByPk db' k = Some p').
  { rewrite Hfind, Hp. cbn [option_map].
    unfold has_id. rewrite Z.eqb_refl. reflexivity. }
  split; [rewrite api_patch, Hi, Hp, Hdb'; reflexivity|].
  split; [exact Hp'|].
  split.
  { intros j Hj. rewrite Hfind.
    destruct (findByPk db j) as [r|] eqn:Er; [|reflexivity].
    apply findByPk_Some in Er as [_ Er]. cbn [option_map].
    destruct (has_id (Product.id p) r) eqn:E; [|reflexivity].
    apply has_id_true in E. congruence. }
  split; [rewrite Hdb'; unfold ids; cbn [rows]; apply ids_overwrite; reflexivity|].
  split; [rewrite Hdb'; reflexivity|].
  rewrite api_patch, Hi, Hp'.
  change (toggled p') with (toggled (toggled p)). rewrite toggled_involutive.
  f_equal. rewrite Hdb'. cbn [rows next_id Product.id p'].
  destruct db as [l n]. cbn [rows next_id] in *. f_equal.
  rewrite map_map. rewrite <- (map_id l) at 2. apply map_ext_in.
  intros r Hrl. apply list_elem_of_In in Hrl.
  destruct (has_id (Product.id p) r) eqn:E.
  - apply has_id_true in E.
    rewrite (unique_row l p r Hnd Hin Hrl E).
    unfold has_id. simpl. rewrite Z.eqb_refl. reflexivity.
  - rewrite E. reflexivity.
Qed.

Lemma C4_toggle_availability_witness :
  reachable one_mouse
  /\ parse_int "1" = Some 1
  /\ findByPk one_mouse 1 = Some mouse_row
  /\ api (PATCH_ "1" ∅) (step one_mouse (PATCH_ "1" ∅))
     = (one_mouse, {| status := 200; json := data_product mouse_row |}).
Proof.
  assert (Hr : reachable one_mouse) by (exists [POST_ mouse]; reflexivity).
  assert (Hi : parse_int "1" = Some 1) by reflexivity.
  assert (Hp : findByPk one_mouse 1 = Some mouse_row) by (vm_compute; reflexivity).
  split; [exact Hr|]. split; [exact Hi|]. split; [exact Hp|].
  pose proof (C4_toggle_availability one_mouse "1" 1 mouse_row ∅ ∅ Hr Hi Hp) as HC.
  cbv zeta in HC. destruct HC as (_ & _ & _ & _ & _ & HC). exact HC.
Defined.

(** C9: a DELETE on an existing product is answered 200 with the text
    [Producto Eliminado] and removes the record for good: the id is no
    longer in the table, and a GET on it is answered 404, directly after the
    DELETE and after any further requests. *)
Theorem C9_delete_is_permanent (db : Store) (i : string) (k : Z) (p : Product.t)
        (b : gmap string JS.value) :
  reachable db ->
  parse_int i = Some k ->
  findByPk db k = Some p ->
  let db' := step db (DELETE_ i b) in
  api (DELETE_ i b) db = (db', {| status := 200; json := data_text "Producto Eliminado" |})
  /\ (k ∉ ids db')
  /\ (forall (reqs : list Request) (b' : gmap string JS.value),
        api (GET_ i b') (serve db' reqs)
        = (serve db' reqs,
           {| status := 404; json := error "Producto no encontrado" |})).
Proof.
  intros Hr Hi Hp db'.
  destruct (reachable_consistent db Hr) as (_ & _ & Hb & _).
  destruct (findByPk_Some db k p Hp) as [Hin Hid].
  assert (Hdb' : db' = {| rows := filter (fun r => has_id k r = false) (rows db);
                          next_id := next_id db |}).
  { unfold db', step. rewrite api_delete, Hi, Hp, Hid. reflexivity. }
  assert (Hgone : k ∉ ids db').
  { rewrite Hdb'. unfold ids. cbn [rows]. rewrite ids_remove.
    intros Hk. apply list_elem_of_filter in Hk as [Hk _]. congruence. }
  assert (Hold : k < next_id db').
  { rewrite Hdb'. cbn [next_id]. rewrite Forall_forall in Hb.
    apply (Hb k). unfold ids. rewrite <- Hid.
    apply list_elem_of_In, in_map, list_elem_of_In, Hin. }
  split; [rewrite api_delete, Hi, Hp, Hdb', Hid; reflexivity|].
  split; [exact Hgone|].
  intros reqs b'.
  destruct (absent_forever reqs db' k Hold Hgone) as [Hk _].
  apply findByPk_None in Hk. rewrite api_get, Hi, Hk. reflexivity.
Qed.

Lemma C9_delete_is_permanent_witness :
  reachable one_mouse
  /\ parse_int "1" = Some 1
  /\ findByPk one_mouse 1 = Some mouse_row
  /\ api (DELETE_ "1" ∅) one_mouse
     = (step one_mouse (DELETE_ "1" ∅),
        {| status := 200; json := data_text "Producto Eliminado" |}).
Proof.
  assert (Hr : reachable one_mouse) by (exists [POST_ mouse]; reflexivity).
  assert (Hi : parse_int "1" = Some 1) by reflexivity.
  assert (Hp : findByPk one_mouse 1 = Some mouse_row) by (vm_compute; reflexivity).
  split; [exact Hr|]. split; [exact Hi|]. split; [exact Hp|].
  pose proof (C9_delete_is_permanent one_mouse "1" 1 mouse_row ∅ Hr Hi Hp) as HC.
  cbv zeta in HC. destruct HC as [HC _]. exact HC.
Defined.

End OneProduct.

(** ** Integer ids, fresh ids and the invariant of the table *)
Section Invariants.
Import ExpressValidator ProductHandlers.

(** Ids are handed out from 1 on: a reachable table holds no id below. *)
Lemma nonpositive_id_absent (db : Store) (z : Z) :
  reachable db -> z <= 0 -> z ∉ ids db.
Proof.
  intros Hr Hz Hin. destruct (reachable_consistent db Hr) as (_ & _ & Hb & _).
  rewrite Forall_forall in Hb. specialize (Hb z Hin). lia.
Qed.

(** C10 (as amended): the rule on the path parameter accepts the decimal
    numeral of every integer, zero and the negative ones included, and the
    handlers read it back as that integer.  For an id denoting a
    non-positive integer that no product has, a GET, PATCH or DELETE, and a
    PUT whose body passes validation, pass validation, reach the existence
    check and are answered 404, not 400. *)
Theorem C10_every_integer_id_accepted (z : Z) (i : string) (db : Store)
        (b valid : gmap string JS.value) :
  parse_int i = Some z ->
  z <= 0 ->
  z ∉ ids db ->
  valid_put_body valid ->
  let answer := (db, {| status := 404; json := error "Producto no encontrado" |}) in
  (forall n : Z,
      Validator.isInt (JS.Z_to_string n) = true
      /\ parse_int (JS.Z_to_string n) = Some n)
  /\ Validator.isInt i = true
  /\ api (GET_ i b) db = answer
  /\ api (PATCH_ i b) db = answer
  /\ api (DELETE_ i b) db = answer
  /\ api (PUT_ i valid) db = answer.
Proof.
  intros Hi _ Hk Hv answer.
  destruct (absent_id_answers db i z b Hi Hk) as (Hg & Hp & Hd & _ & _).
  destruct (absent_id_answers db i z valid Hi Hk) as (_ & _ & _ & Hu & _).
  split; [intros n; split; [apply isInt_Z_to_string | apply parse_int_Z_to_string]|].
  split; [eapply parse_int_isInt; exact Hi|]. auto.
Qed.

Lemma C10_every_integer_id_accepted_witness :
  parse_int "-1" = Some (-1)
  /\ -1 <= 0
  /\ (-1 ∉ ids one_mouse)
  /\ valid_put_body (full_body (JS.Str "Monitor Curvo") (JS.Num 300) (JS.Bool true))
  /\ api (PUT_ "-1" (full_body (JS.Str "Monitor Curvo") (JS.Num 300) (JS.Bool true)))
         one_mouse
     = (one_mouse, {| status := 404; json := error "Producto no encontrado" |}).
Proof.
  assert (Hi : parse_int "-1" = Some (-1)) by reflexivity.
  assert (Hz : -1 <= 0) by lia.
  assert (Hk : -1 ∉ ids one_mouse).
  { intros Hin. apply list_elem_of_In in Hin. vm_compute in Hin.
    destruct Hin as [Hin|[]]. discriminate Hin. }
  split; [exact Hi|]. split; [exact Hz|]. split; [exact Hk|].
  split; [exact valid_full_body|].
  pose proof (C10_every_integer_id_accepted (-1) "-1" one_mouse ∅ _ Hi Hz Hk
                valid_full_body) as HC.
  cbv zeta in HC. destruct HC as (_ & _ & _ & _ & _ & HC). exact HC.
Defined.

(** C10 as stated fails for PUT: with the id [-1], which no product has,
    and an empty body the answer is 400, not 404. *)
Lemma C10_counterexample :
  parse_int "-1" = Some (-1)
  /\ (-1 ∉ ids empty_store)
  /\ api (PUT_ "-1" ∅) empty_store
     = (empty_store,
        {| status := 400;
           json := errors
             [ body_error "El nombre del producto no puede ir vacio" "name" JS.Undefined;
               body_error "Valor no válido" "price" JS.Undefined;
               body_error "El precio del producto no puede ir vacio" "price" JS.Undefined;
               body_error "Precio no válido" "price" JS.Undefined;
               body_error "Valor para disponibilidad no válido" "availability"
                 JS.Undefined ] |}).
Proof.
  split; [reflexivity|]. split; [apply not_elem_of_nil|].
  unfold api. rewrite router_put. reflexivity.
Qed.

Lemma numeric_not_empty (v : JS.value) :
  Validator.isNumeric (toString v) = true -> Validator.isEmpty (toString v) = false.
Proof. destruct (toString v); [discriminate | reflexivity]. Qed.




(** C1: in every reachable state of the table every stored product has a
    price above zero, and every request preserves this: create and replace
    reject a price that is not above zero and leave the table alone, toggle
    leaves every price as it is, and delete only removes rows.  The ids of
    the stored products are never changed: after a request the ids are those
    before, in the same order, possibly without a deleted one or with the
    next id of the sequence appended; no id occurs twice.  An id is never
    reused: every id in the table is below the sequence, the sequence never
    goes back, and an id below it that is not in the table stays out of the
    table whatever requests follow. *)
Theorem C1_positive_prices_stable_ids (db : Store) (req : Request) :
  reachable db ->
  Forall positive_price (rows db)
  /\ Forall positive_price (rows (step db req))
  /\ (forall b, JS.gt0 (field_of b "price") = false -> step db (POST_ b) = db)
  /\ (forall i b, JS.gt0 (field_of b "price") = false -> step db (PUT_ i b) = db)
  /\ (forall i b,
        map Product.price (rows (step db (PATCH_ i b))) = map Product.price (rows db))
  /\ (forall i b r, r ∈ rows (step db (DELETE_ i b)) -> r ∈ rows db)
  /\ (ids (step db req) = ids db
      \/ (exists k, ids (step db req) = filter (fun x => x <> k) (ids db))
      \/ ids (step db req) = ids db ++ [next_id db])
  /\ NoDup (ids (step db req))
  /\ Forall (fun k => k < next_id db) (ids db)
  /\ next_id db <= next_id (step db req)
  /\ (forall k reqs, k < next_id db -> k ∉ ids db -> k ∉ ids (serve db reqs)).
Proof.
  intros Hr.
  pose proof (reachable_consistent db Hr) as (Hp & H0 & Hb & Hnd).
  pose proof (reachable_consistent _ (reachable_step db req Hr)) as (Hp' & _ & _ & Hnd').
  split; [exact Hp|]. split; [exact Hp'|].
  split.
  { intros b Hneg. unfold step. rewrite api_post.
    destruct (name_errors _ ++ _) eqn:E; [|reflexivity].
    apply app_eq_nil in E as [_ E]. apply price_errors_nil in E as [_ E]. congruence. }
  split.
  { intros i b Hneg. unfold step. rewrite api_put.
    destruct (id_errors i ++ _) eqn:E; [|reflexivity].
    apply app_eq_nil in E as [_ E]. apply app_eq_nil in E as [_ E].
    apply app_eq_nil in E as [E _]. apply price_errors_nil in E as [_ E]. congruence. }
  split.
  { intros i b. unfold step. rewrite api_patch.
    destruct (parse_int i) as [k|]; [|reflexivity].
    destruct (findByPk db k) as [p|] eqn:Ep; [|reflexivity].
    apply findByPk_Some in Ep as [Hin _]. cbn [fst rows].
    rewrite map_map. apply map_ext_in. intros r Hrl.
    apply list_elem_of_In in Hrl.
    destruct (has_id (Product.id p) r) eqn:E; [|reflexivity].
    apply has_id_true in E. rewrite (unique_row _ p r Hnd Hin Hrl E). reflexivity. }
  split.
  { intros i b r. unfold step. rewrite api_delete.
    destruct (parse_int i) as [k|]; [|auto].
    destruct (findByPk db k) as [p|]; [|auto].
    cbn [fst rows]. intros Hin. apply list_elem_of_filter in Hin as [_ Hin]. exact Hin. }
  split.
  { destruct (transition_ids db _ (step_transition db req))
      as [[-> _]|[[[k ->] _]|[-> _]]]; eauto. }
  split; [exact Hnd'|].
  split.
  { eapply Forall_impl; [exact Hb|]. intros k Hk. apply Hk. }
  split; [apply (next_id_monotone [req] db)|].
  intros k reqs Hk Hn. apply (absent_forever reqs db k Hk Hn).
Qed.

Lemma C1_positive_prices_stable_ids_witness :
  reachable one_mouse
  /\ Forall positive_price (rows (step one_mouse (PATCH_ "1" ∅))).
Proof.
  assert (Hr : reachable one_mouse) by (exists [POST_ mouse]; reflexivity).
  split; [exact Hr|].
  pose proof (C1_positive_prices_stable_ids one_mouse (PATCH_ "1" ∅) Hr) as HC.
  destruct HC as (_ & HC & _). exact HC.
Defined.

End Invariants.

(** * Further properties of the rules *)
Section Rules.
Import ExpressValidator ProductHandlers.




Lemma run_price_rule (req : Request) :
  run price_rule req = price_errors (field_of (req_body req) "price").
Proof.
  unfold run, price_rule, price_errors, field_of. simpl.
  destruct (Validator.isNumeric _), (Validator.isEmpty _), (JS.gt0 _); reflexivity.
Qed.

Lemma run_availability_rule (req : Request) :
  run availability_rule req
  = availability_errors (field_of (req_body req) "availability").
Proof.
  unfold run, availability_rule, availability_errors, field_of. simpl.
  destruct (Validator.isBoolean _); reflexivity.
Qed.

Lemma rules_as_declared :
  post_rules = [name_rule; price_rule]
  /\ put_body_rules = [name_rule; price_rule; availability_rule].
Proof. split; reflexivity. Qed.

(** Whatever chains a route lists before [handleInputErrors], its handler
    runs only on a request on which no rule of any chain fails, and then on
    the request as it came; otherwise the answer is 400 with the errors of
    all the chains, in the order the chains are listed, and the table is
    left alone. *)
Theorem gate_collects_every_error (cs : list ValidationChain) (h : Handler)
        (req : Request) (db : Store) :
  route (map validate cs ++ [handleInputErrors]) h (incoming req) db
  = match flat_map (fun c => run c req) cs with
    | [] => h (incoming req) db
    | es => (db, {| status := 400; json := errors es |})
    end.
Proof. apply (route_validate_gate cs h req []). Qed.


Lemma run_id_rule_any (req : Request) :
  run id_rule req = []
  \/ exists v, run id_rule req
               = [{| msg := "ID no válido"; path := "id"; location := in_params;
                     value := v |}].
Proof.
  unfold run, id_rule. simpl.
  destruct (xorb _ _); [left; reflexivity | right; eauto].
Qed.

(** On a body whose fields are JSON scalars or absent (no array, no
    object), the errors of a create and of a replace request come in the
    order the rules are declared: their messages are a subsequence of the
    declared ones, so there are at most four and at most six of them, and
    the default message of the validator never shows. *)
Theorem messages_in_declared_order (req : Request) :
  let post_errors := validation_errors post_rules req in
  let put_errors := validation_errors (id_rule :: put_body_rules) req in
  sublist (map msg post_errors) post_messages
  /\ sublist (map msg put_errors) put_messages
  /\ (length post_errors <= 4)%nat
  /\ (length put_errors <= 6)%nat
  /\ Forall (fun e => msg e <> "Invalid value") (post_errors ++ put_errors).
Proof.
  intros post_errors put_errors.
  assert (Hpost : sublist (map msg post_errors) post_messages).
  { unfold post_errors. rewrite post_rules_errors.
    unfold name_errors, price_errors, post_messages.
    destruct (Validator.isEmpty _), (Validator.isNumeric _), (Validator.isEmpty _),
      (JS.gt0 _); cbn;
      repeat first [apply sublist_nil | apply sublist_skip | apply sublist_cons]. }
  assert (Hput : sublist (map msg put_errors) put_messages).
  { unfold put_errors. rewrite validation_errors_cons, put_body_rules_errors.
    unfold name_errors, price_errors, availability_errors, put_messages,
      post_messages.
    destruct (run_id_rule_any req) as [->|[v ->]];
      destruct (Validator.isEmpty _), (Validator.isNumeric _), (Validator.isEmpty _),
        (JS.gt0 _), (Validator.isBoolean _); cbn;
      repeat first [apply sublist_nil | apply sublist_skip | apply sublist_cons]. }
  split; [exact Hpost|]. split; [exact Hput|].
  split; [apply sublist_length in Hpost; rewrite length_map in Hpost; exact Hpost|].
  split; [apply sublist_length in Hput; rewrite length_map in Hput; exact Hput|].
  apply Forall_forall. intros e He Hmsg.
  assert (Hin : msg e ∈ put_messages).
  { assert (Hmem : forall l, e ∈ l -> msg e ∈ map msg l).
    { intros l Hl. apply list_elem_of_In, in_map, list_elem_of_In, Hl. }
    apply elem_of_app in He as [He|He].
    - unfold put_messages. apply elem_of_cons. right. apply elem_of_app. left.
      eapply elem_of_sublist; [apply Hmem, He | exact Hpost].
    - eapply elem_of_sublist; [apply Hmem, He | exact Hput]. }
  rewrite Hmsg in Hin. vm_compute in Hin.
  repeat (apply elem_of_cons in Hin as [Hin|Hin]; [discriminate Hin|]).
  apply elem_of_nil in Hin. exact Hin.
Qed.

(** A price sent as a number with an integer literal passes the price
    chain exactly when the literal is above zero and below 10^21 - 65536,
    that is when the double it reads as is above zero and below 10^21.  Zero
    and the negative numbers draw the positivity error; from 10^21 - 65536
    on in magnitude the number is printed in exponent form, or as
    [Infinity], and draws the numeric error; the emptiness error never
    shows. *)
Theorem integer_price_errors (n : JS.value) (z : Z) :
  run price_rule (POST_ (product_body n (JS.Num z)))
  = (if Z.abs z <? 10 ^ 21 - 65536 then []
     else [body_error "Valor no válido" "price" (JS.Num z)])
    ++ (if 0 <? z then []
        else [body_error "Precio no válido" "price" (JS.Num z)]).
Proof.
  rewrite run_price_rule.
  change (req_body (POST_ (product_body n (JS.Num z)))) with (product_body n (JS.Num z)).
  destruct (product_body_fields n (JS.Num z)) as [_ ->].
  unfold price_errors. cbn [toString].
  rewrite isNumeric_Number, isEmpty_Number, gt0_Number.
  destruct (Z.abs z <? 10 ^ 21 - 65536), (0 <? z); reflexivity.
Qed.



End Rules.

(** * Further properties of the handlers behind the router *)
Section Sequences.
Import ExpressValidator ProductHandlers.

(** A request that is answered with anything but 200 or 201, and any GET,
    leaves the table as it was: only a create, a replace, a toggle and a
    delete that succeed write to it. *)
Theorem only_success_writes (req : Request) (db : Store) :
  method req = GET
  \/ (status (snd (api req db)) <> 200 /\ status (snd (api req db)) <> 201) ->
  step db req = db.
Proof.
  unfold step. destruct req as [m [i|] b]; destruct m; cbn [method];
    try reflexivity; intros [Hm|[H200 H201]]; try discriminate Hm.
  - change (fst (api (GET_ i b) db) = db). rewrite api_get.
    destruct (parse_int i); [destruct (findByPk db _)|]; reflexivity.
  - change (fst (api (GET_ i b) db) = db). rewrite api_get.
    destruct (parse_int i); [destruct (findByPk db _)|]; reflexivity.
  - change (api {| method := PUT; params_id := Some i; req_body := b |})
      with (api (PUT_ i b)) in *.
    rewrite api_put in *.
    destruct (id_errors i ++ _); [|reflexivity].
    destruct (parse_int i ≫= findByPk db); [|reflexivity].
    destruct (to_price _); [|reflexivity].
    destruct (to_boolean _); [|reflexivity].
    exfalso. apply H200. reflexivity.
  - change (api {| method := PATCH; params_id := Some i; req_body := b |})
      with (api (PATCH_ i b)) in *.
    rewrite api_patch in *.
    destruct (parse_int i); [|reflexivity].
    destruct (findByPk db _); [|reflexivity].
    exfalso. apply H200. reflexivity.
  - change (api {| method := DELETE; params_id := Some i; req_body := b |})
      with (api (DELETE_ i b)) in *.
    rewrite api_delete in *.
    destruct (parse_int i); [|reflexivity].
    destruct (findByPk db _); [|reflexivity].
    exfalso. apply H200. reflexivity.
  - change (api {| method := POST; params_id := None; req_body := b |})
      with (api (POST_ b)) in *.
    rewrite api_post in *.
    destruct (name_errors _ ++ _); [|reflexivity].
    destruct (to_price _); [|reflexivity].
    exfalso. apply H201. reflexivity.
Qed.

Lemma only_success_writes_witness :
  (method (GET_ "2000" ∅) = GET
   \/ (status (snd (api (GET_ "2000" ∅) one_mouse)) <> 200
       /\ status (snd (api (GET_ "2000" ∅) one_mouse)) <> 201))
  /\ step one_mouse (GET_ "2000" ∅) = one_mouse.
Proof.
  assert (Hh : method (GET_ "2000" ∅) = GET
               \/ (status (snd (api (GET_ "2000" ∅) one_mouse)) <> 200
                   /\ status (snd (api (GET_ "2000" ∅) one_mouse)) <> 201))
    by (left; reflexivity).
  split; [exact Hh|].
  exact (only_success_writes (GET_ "2000" ∅) one_mouse Hh).
Defined.

(** What a create request that passes validation does. *)
Lemma api_post_valid (db : Store) (b : gmap string JS.value) :
  Validator.isEmpty (toString (field_of b "name")) = false ->
  Validator.isNumeric (toString (field_of b "price")) = true ->
  JS.gt0 (field_of b "price") = true ->
  exists q : Q,
    to_price (field_of b "price") = Some q
    /\ api (POST_ b) db
       = ({| rows := rows db
                     ++ [{| Product.id := next_id db;
                            Product.name := toString (field_of b "name");
                            Product.price := q;
                            Product.availability := true |}];
             next_id := next_id db + 1 |},
          {| status := 201;
             json := data_product
                       {| Product.id := next_id db;
                          Product.name := toString (field_of b "name");
                          Product.price := q;
                          Product.availability := true |} |}).
Proof.
  intros Hname Hnum Hpos. destruct (numeric_price _ Hnum) as [q Hq].
  exists q. split; [exact Hq|].
  rewrite api_post. unfold name_errors, price_errors.
  rewrite Hname, Hnum, (numeric_not_empty _ Hnum), Hpos, Hq. reflexivity.
Qed.

Lemma find_appended (k : Z) (l : list Product.t) (p : Product.t) :
  k ∉ map Product.id l -> Product.id p = k ->
  find (has_id k) (l ++ [p]) = Some p.
Proof.
  intros Hk Hp. induction l as [|r l IH]; simpl.
  - apply has_id_true in Hp. rewrite Hp. reflexivity.
  - simpl in Hk. apply not_elem_of_cons in Hk as [Hne Hk].
    destruct (has_id k r) eqn:E; [apply has_id_true in E; congruence|].
    apply IH, Hk.
Qed.

(** A product that was created is found: after a create request that
    passes validation, a GET on the id it was given returns the record of
    the 201 answer, and the listing is the former listing with that record
    at its end. *)
Theorem created_product_is_found (db : Store) (b b' : gmap string JS.value) :
  reachable db ->
  Validator.isEmpty (toString (field_of b "name")) = false ->
  Validator.isNumeric (toString (field_of b "price")) = true ->
  JS.gt0 (field_of b "price") = true ->
  exists p : Product.t,
    Product.id p = next_id db
    /\ api (POST_ b) db
       = (step db (POST_ b), {| status := 201; json := data_product p |})
    /\ api (GET_ (JS.Z_to_string (next_id db)) b') (step db (POST_ b))
       = (step db (POST_ b), {| status := 200; json := data_product p |})
    /\ api {| method := GET; params_id := None; req_body := b' |} (step db (POST_ b))
       = (step db (POST_ b), {| status := 200; json := data_list (rows db ++ [p]) |}).
Proof.
  intros Hr Hname Hnum Hpos.
  destruct (api_post_valid db b Hname Hnum Hpos) as (q & Hq & Hpost).
  destruct (reachable_consistent db Hr) as (_ & _ & Hb & _).
  unfold step. rewrite Hpost. cbn [fst].
  eexists. split; [|split; [reflexivity|split; [|reflexivity]]]; [reflexivity|].
  rewrite api_get, parse_int_Z_to_string. unfold findByPk. cbn [rows].
  rewrite find_appended; [reflexivity | | reflexivity].
  intros Hin. rewrite Forall_forall in Hb. specialize (Hb _ Hin). lia.
Qed.

Lemma created_product_is_found_witness :
  reachable one_mouse
  /\ Validator.isEmpty (toString (field_of mouse "name")) = false
  /\ Validator.isNumeric (toString (field_of mouse "price")) = true
  /\ JS.gt0 (field_of mouse "price") = true
  /\ exists p : Product.t,
       Product.id p = next_id one_mouse
       /\ api (POST_ mouse) one_mouse
          = (step one_mouse (POST_ mouse), {| status := 201; json := data_product p |})
       /\ api (GET_ (JS.Z_to_string (next_id one_mouse)) ∅) (step one_mouse (POST_ mouse))
          = (step one_mouse (POST_ mouse), {| status := 200; json := data_product p |})
       /\ api {| method := GET; params_id := None; req_body := ∅ |}
              (step one_mouse (POST_ mouse))
          = (step one_mouse (POST_ mouse),
             {| status := 200; json := data_list (rows one_mouse ++ [p]) |}).
Proof.
  assert (Hr : reachable one_mouse) by (exists [POST_ mouse]; reflexivity).
  assert (H1 : Validator.isEmpty (toString (field_of mouse "name")) = false)
    by reflexivity.
  assert (H2 : Validator.isNumeric (toString (field_of mouse "price")) = true)
    by (vm_compute; reflexivity).
  assert (H3 : JS.gt0 (field_of mouse "price") = true) by (vm_compute; reflexivity).
  split; [exact Hr|]. split; [exact H1|]. split; [exact H2|]. split; [exact H3|].
  exact (created_product_is_found one_mouse mouse ∅ Hr H1 H2 H3).
Defined.

Lemma boolean_value (v : JS.value) :
  Validator.isBoolean (toString v) = true -> exists a, to_boolean v = Some a.
Proof.
  unfold Validator.isBoolean, to_boolean. rewrite bool_decide_eq_true.
  rewrite !elem_of_cons, elem_of_nil.
  intros [->|[->|[->|[->|[]]]]]; cbn; eauto.
Qed.

Lemma has_id_overwrite (j k : Z) (p' r : Product.t) :
  Product.id p' = k ->
  has_id j (if has_id k r then p' else r) = has_id j r.
Proof.
  intros Hk. destruct (has_id k r) eqn:E; [|reflexivity].
  apply has_id_true in E. unfold has_id. rewrite Hk, E. reflexivity.
Qed.

(** A PUT on an existing product with a body that passes validation is
    answered 200 with the record that keeps the id and takes the name, the
    price and the availability of the body.  The table then holds that
    record under the id and every other product as before, with the same
    ids in the same order; sending the same PUT again changes nothing. *)
Theorem replace_existing (db : Store) (i : string) (k : Z) (p : Product.t)
        (b : gmap string JS.value) :
  parse_int i = Some k ->
  findByPk db k = Some p ->
  valid_put_body b ->
  exists (q : Q) (a : bool),
    to_price (field_of b "price") = Some q
    /\ (0 < q)%Q
    /\ to_boolean (field_of b "availability") = Some a
    /\ let p' := {| Product.id := k;
                    Product.name := toString (field_of b "name");
                    Product.price := q;
                    Product.availability := a |} in
       let db' := step db (PUT_ i b) in
       api (PUT_ i b) db = (db', {| status := 200; json := data_product p' |})
       /\ findByPk db' k = Some p'
       /\ (forall j, j <> k -> findByPk db' j = findByPk db j)
       /\ ids db' = ids db
       /\ next_id db' = next_id db
       /\ api (PUT_ i b) db' = (db', {| status := 200; json := data_product p' |}).
Proof.
  intros Hi Hp (Hn & Hpr & Hav).
  destruct (findByPk_Some db k p Hp) as [Hin Hid].
  destruct (price_errors_nil _ Hpr) as [Hnum Hpos].
  destruct (numeric_price _ Hnum) as [q Hq].
  assert (Hbool : Validator.isBoolean (toString (field_of b "availability")) = true).
  { unfold availability_errors in Hav.
    destruct (Validator.isBoolean _); [reflexivity | discriminate]. }
  destruct (boolean_value _ Hbool) as [a Ha].
  exists q, a. split; [exact Hq|]. split; [eapply gt0_positive; eassumption|].
  split; [exact Ha|]. intros p' db'.
  set (f := fun r : Product.t => if has_id k r then p' else r).
  assert (Hput : forall d, findByPk d k <> None ->
                 api (PUT_ i b) d
                 = ({| rows := map f (rows d); next_id := next_id d |},
                    {| status := 200; json := data_product p' |})).
  { intros d Hd. rewrite api_put, id_errors_parse, Hi, Hn, Hpr, Hav. cbn [app].
    cbn [mbind option_bind]. destruct (findByPk d k) as [r|] eqn:Er; [|congruence].
    apply findByPk_Some in Er as [_ Er]. rewrite Hq, Ha, Er. reflexivity. }
  assert (Hdb' : db' = {| rows := map f (rows db); next_id := next_id db |}).
  { unfold db', step. rewrite Hput; [reflexivity | congruence]. }
  assert (Hfind : forall j, findByPk db' j = option_map f (findByPk db j)).
  { intros j. rewrite Hdb'. unfold findByPk. cbn [rows].
    apply find_overwritten. intros r. apply has_id_overwrite. reflexivity. }
  assert (Hp' : findByPk db' k = Some p').
  { rewrite Hfind, Hp. cbn [option_map]. unfold f.
    apply has_id_true in Hid. rewrite Hid. reflexivity. }
  split; [rewrite Hput, Hdb'; [reflexivity | congruence]|].
  split; [exact Hp'|].
  split.
  { intros j Hj. rewrite Hfind.
    destruct (findByPk db j) as [r|] eqn:Er; [|reflexivity].
    apply findByPk_Some in Er as [_ Er]. cbn [option_map]. unfold f.
    destruct (has_id k r) eqn:E; [|reflexivity].
    apply has_id_true in E. congruence. }
  split; [rewrite Hdb'; unfold ids; cbn [rows]; apply ids_overwrite; reflexivity|].
  split; [rewrite Hdb'; reflexivity|].
  rewrite Hput by congruence. f_equal. rewrite Hdb'. cbn [rows next_id]. f_equal.
  rewrite map_map. apply map_ext. intros r. unfold f.
  destruct (has_id k r) eqn:E; [|rewrite E; reflexivity].
  unfold has_id. cbn. rewrite Z.eqb_refl. reflexivity.
Qed.

Lemma replace_existing_witness :
  parse_int "1" = Some 1
  /\ findByPk one_mouse 1 = Some mouse_row
  /\ valid_put_body (full_body (JS.Str "Monitor Curvo") (JS.Num 300) (JS.Bool true))
  /\ exists (q : Q) (a : bool),
       to_price (field_of (full_body (JS.Str "Monitor Curvo") (JS.Num 300)
                                     (JS.Bool true)) "price") = Some q
       /\ (0 < q)%Q
       /\ to_boolean (field_of (full_body (JS.Str "Monitor Curvo") (JS.Num 300)
                                          (JS.Bool true)) "availability") = Some a.
Proof.
  assert (Hi : parse_int "1" = Some 1) by reflexivity.
  assert (Hp : findByPk one_mouse 1 = Some mouse_row) by (vm_compute; reflexivity).
  split; [exact Hi|]. split; [exact Hp|]. split; [exact valid_full_body|].
  destruct (replace_existing one_mouse "1" 1 mouse_row _ Hi Hp valid_full_body)
    as (q & a & Hq & Hpos & Ha & _).
  exists q, a. auto.
Defined.

Lemma count_cons (f : Response -> bool) (a : Response) (l : list Response) :
  count f (a :: l) = ((if f a then 1 else 0) + count f l)%nat.
Proof. unfold count. simpl. destruct (f a); reflexivity. Qed.

Lemma filter_keeps_all (k : Z) (l : list Product.t) :
  k ∉ map Product.id l ->
  filter (fun r => has_id k r = false) l = l.
Proof.
  induction l as [|r l IH]; [reflexivity|]. simpl. intros Hk.
  apply not_elem_of_cons in Hk as [Hne Hk].
  rewrite filter_cons, (IH Hk).
  destruct (decide (has_id k r = false)) as [_|Hn]; [reflexivity|].
  exfalso. apply Hn. apply has_id_false. congruence.
Qed.

(** With ids that occur once, removing the rows of an id in the table
    removes one row. *)
Lemma filter_removes_one (l : list Product.t) (p : Product.t) :
  NoDup (map Product.id l) -> p ∈ l ->
  (length (filter (fun r => has_id (Product.id p) r = false) l) + 1 = length l)%nat.
Proof.
  induction l as [|r l IH]; simpl; intros Hnd Hp.
  - apply elem_of_nil in Hp. contradiction.
  - apply NoDup_cons in Hnd as [Hr Hnd]. rewrite filter_cons.
    destruct (decide (has_id (Product.id p) r = false)) as [Hne|Heq].
    + apply has_id_false in Hne.
      apply elem_of_cons in Hp as [->|Hp]; [congruence|].
      simpl. rewrite <- (IH Hnd Hp). lia.
    + assert (Hid : Product.id r = Product.id p).
      { destruct (has_id (Product.id p) r) eqn:E; [|congruence].
        apply has_id_true, E. }
      rewrite filter_keeps_all; [lia|]. rewrite <- Hid. exact Hr.
Qed.

(** What one request does to the number of rows, read off its answer. *)
Lemma step_counts (db : Store) (req : Request) :
  consistent db ->
  (length (rows (step db req)) + (if is_deleted (snd (api req db)) then 1 else 0)
   = length (rows db) + (if is_created (snd (api req db)) then 1 else 0))%nat.
Proof.
  intros (_ & _ & _ & Hnd).
  unfold step. destruct req as [m [i|] b]; destruct m; try reflexivity.
  - change (api {| method := GET; params_id := Some i; req_body := b |})
      with (api (GET_ i b)).
    rewrite api_get.
    destruct (parse_int i); [destruct (findByPk db _)|]; reflexivity.
  - change (api {| method := PUT; params_id := Some i; req_body := b |})
      with (api (PUT_ i b)).
    rewrite api_put.
    destruct (id_errors i ++ _); [|reflexivity].
    destruct (parse_int i ≫= findByPk db); [|reflexivity].
    destruct (to_price _); [|reflexivity].
    destruct (to_boolean _); [|reflexivity].
    cbn. rewrite length_map. reflexivity.
  - change (api {| method := PATCH; params_id := Some i; req_body := b |})
      with (api (PATCH_ i b)).
    rewrite api_patch.
    destruct (parse_int i); [|reflexivity].
    destruct (findByPk db _); [|reflexivity].
    cbn. rewrite length_map. reflexivity.
  - change (api {| method := DELETE; params_id := Some i; req_body := b |})
      with (api (DELETE_ i b)).
    rewrite api_delete.
    destruct (parse_int i) as [k|]; [|reflexivity].
    destruct (findByPk db k) as [p|] eqn:Ep; [|reflexivity].
    apply findByPk_Some in Ep as [Hin _].
    cbn. rewrite Nat.add_0_r. apply filter_removes_one; assumption.
  - change (api {| method := POST; params_id := None; req_body := b |})
      with (api (POST_ b)).
    rewrite api_post.
    destruct (name_errors _ ++ _); [|reflexivity].
    destruct (to_price _); [|reflexivity].
    cbn. rewrite length_app. simpl. lia.
Qed.

Lemma serve_counts (reqs : list Request) (db : Store) :
  consistent db ->
  (length (rows (serve db reqs)) + count is_deleted (answers db reqs)
   = length (rows db) + count is_created (answers db reqs))%nat.
Proof.
  revert db. induction reqs as [|req reqs IH]; intros db Hc.
  - unfold count. simpl. lia.
  - cbn [answers]. rewrite !count_cons.
    change (serve db (req :: reqs)) with (serve (step db req) reqs).
    pose proof (step_counts db req Hc) as Hs.
    pose proof (IH (step db req)
                  (transition_consistent _ _ Hc (step_transition db req))) as Hi.
    lia.
Qed.

(** The listing counts what was created and not deleted: after any
    sequence of requests on an empty table, the number of products a GET on
    [/] returns is the number of 201 answers less the number of delete
    confirmations among the answers so far. *)
Theorem listing_counts (reqs : list Request) (b : gmap string JS.value) :
  exists ps : list Product.t,
    snd (api {| method := GET; params_id := None; req_body := b |}
             (serve empty_store reqs))
    = {| status := 200; json := data_list ps |}
    /\ (length ps + count is_deleted (answers empty_store reqs)
        = count is_created (answers empty_store reqs))%nat.
Proof.
  exists (rows (serve empty_store reqs)). split; [reflexivity|].
  apply (serve_counts reqs empty_store empty_store_consistent).
Qed.

End Sequences.

(** * Create and replace validate a body alike *)
Section CreateAndReplace.
Import ExpressValidator.

(** The name and price rules of [router.put] are those of [router.post]:
    whatever the handlers, a replace request reports the errors a create
    request with the same body reports, after the error of its id, if any,
    and before the error of its availability, if any; each route runs its
    handler only when its list is empty. *)
Theorem replace_validates_as_create (i : string) (b : gmap string JS.value) :
  exists es : list ValidationError,
    (forall (H : Handlers) (db : Store),
        router H (POST_ b) db
        = match es with
          | [] => createProduct H (incoming (POST_ b)) db
          | _ => (db, {| status := 400; json := errors es |})
          end)
    /\ (forall (H : Handlers) (db : Store),
          router H (PUT_ i b) db
          = match (if Validator.isInt i then [] else [id_error i])
                  ++ es
                  ++ run availability_rule (PUT_ i b) with
            | [] => updateProduct H (incoming (PUT_ i b)) db
            | all => (db, {| status := 400; json := errors all |})
            end).
Proof.
  exists (name_errors (field_of b "name") ++ price_errors (field_of b "price")).
  split; intros H db.
  - rewrite router_post. destruct (name_errors _ ++ _); reflexivity.
  - rewrite router_put, run_availability_rule. unfold id_errors.
    change (req_body (PUT_ i b)) with b.
    rewrite <- (app_assoc (name_errors _)).
    destruct ((if Validator.isInt i then _ else _) ++ _); reflexivity.
Qed.

End CreateAndReplace.
